(** * Block-level page I/O of the B-tree: [src/btree/bt_rw.c]

    A shallow embedding of [__wt_disk_read] and [__wt_disk_write].
    Buffers are byte lists, the page header is read and written through
    the leading bytes of the buffer exactly as the C code does through
    its [WT_PAGE_DISK *dsk] overlay, unsigned C integers are [Z] with the
    wrap-around written out, and the collaborators that live outside the
    file (file I/O, checksum, block allocator, scratch pool) are an
    interface. *)

From Stdlib Require Import ZArith List Lia Bool Sorted.
Import ListNotations.
Local Open Scope Z_scope.

(** ** Machine integers *)

Definition wrap32 (z : Z) : Z := z mod 2 ^ 32.
Definition wrap64 (z : Z) : Z := z mod 2 ^ 64.
Definition UINT32_MAX : Z := 2 ^ 32 - 1.

(** [#define COMPRESS_SKIP 32] *)
Definition COMPRESS_SKIP : Z := 32.

(** ** Raw memory *)

(** Writing [data] at byte offset [off] of a memory region.  The C code
    relies on its callers for the region being large enough; every
    statement below that depends on it carries the capacity as a
    hypothesis. *)
Definition store (m : list Z) (off : nat) (data : list Z) : list Z :=
  firstn off m ++ data ++ skipn (off + length data) m.

(** [memcpy(dst, src, n)] *)
Definition memcpy (dst src : list Z) (n : nat) : list Z :=
  store dst 0 (firstn n src).

(** [memset(m + off, c, n)] *)
Definition memset (m : list Z) (off : nat) (c : Z) (n : nat) : list Z :=
  store m off (repeat c n).

(** Unsigned integers in memory, least significant byte first. *)
Fixpoint le_bytes (n : nat) (v : Z) : list Z :=
  match n with
  | O => []
  | S k => v mod 256 :: le_bytes k (v / 256)
  end.

Fixpoint le_value (bs : list Z) : Z :=
  match bs with
  | [] => 0
  | b :: t => b + 256 * le_value t
  end.

Definition load (m : list Z) (off n : nat) : Z :=
  le_value (firstn n (skipn off m)).

(** ** The page header

    Modelled from the spec: the layout of [WT_PAGE_DISK], whose
    declaration is in [wt_internal.h].  Section 6 of the specification
    lists the fields of the leading 32 bytes in this order:
    checksum:u32, size:u32, memsize:u32, lsn:u64, type:u8. *)
Record field := mkField { f_off : nat; f_len : nat }.

Definition F_checksum : field := mkField 0 4.
Definition F_size : field := mkField 4 4.
Definition F_memsize : field := mkField 8 4.
Definition F_lsn : field := mkField 12 8.

Definition get (f : field) (m : list Z) : Z := load m (f_off f) (f_len f).
Definition set (f : field) (m : list Z) (v : Z) : list Z :=
  store m (f_off f) (le_bytes (f_len f) v).

(** Two fields that share no byte. *)
Definition disjoint (f g : field) : Prop :=
  (f_off f + f_len f <= f_off g)%nat \/ (f_off g + f_len g <= f_off f)%nat.

(** ** Buffers, compressors, collaborators *)

(** [WT_BUF]: the memory it owns and the byte count in use. *)
Record WT_BUF := mkBuf { mem : list Z; size : Z }.

(** [WT_COMPRESSOR]: source bytes and destination capacity in, the bytes
    written to the destination out ([None] is a non-zero return). *)
Record WT_COMPRESSOR := mkCompressor {
  compress : list Z -> Z -> option (list Z);
  decompress : list Z -> Z -> option (list Z)
}.

(** What [bt_rw.c] calls and does not define.  [WT_SCR] is the scratch
    pool of the session as one call finds it: [__wt_scr_alloc] is handed
    the session, and whether it can serve a request is decided anew at
    every call. *)
Class WT_ENV := {
  WT_FH : Type;
  WT_BLOCK : Type;
  WT_SCR : Type;
  __wt_cksum : list Z -> Z;
  __wt_read : WT_FH -> Z -> Z -> option (list Z);
  __wt_write : WT_FH -> Z -> Z -> list Z -> option WT_FH;
  __wt_block_alloc : WT_BLOCK -> Z -> option (Z * WT_BLOCK);
  __wt_scr_alloc : WT_SCR -> Z -> option WT_BUF
}.

Inductive wt_error :=
| IOFailure
| ChecksumMismatch
| ScratchAllocFailed
| NoCompressor
| DecompressionFailed
| AllocationFailed.

(** Modelled from the spec: [WT_ALIGN], the macro is not in this file;
    [round_up(n, allocation_unit)]. *)
Definition WT_ALIGN (n v : Z) : Z := (n + (v - 1)) / v * v.

(** Modelled from the spec: [WT_LSN_INCR], the increment of the shared
    64-bit counter. *)
Definition WT_LSN_INCR (l : Z) : Z := wrap64 (l + 1).

Record WT_STATS := mkStats {
  page_read : Z; block_read : Z; page_write : Z; block_write : Z
}.

Section Model.
Context {E : WT_ENV}.

Record WT_BTREE := mkBtree {
  allocsize : Z;
  lsn : Z;
  compressor : option WT_COMPRESSOR;
  fh : WT_FH;
  block : WT_BLOCK
}.

Record WT_SESSION_IMPL := mkSession { btree : WT_BTREE; stats : WT_STATS }.

(** Modelled from the spec: [WT_ADDR_TO_OFF], byte offset =
    addr * allocation_unit. *)
Definition WT_ADDR_TO_OFF (bt : WT_BTREE) (addr : Z) : Z := addr * allocsize bt.

Definition stat_read (s : WT_SESSION_IMPL) : WT_SESSION_IMPL :=
  let st := stats s in
  mkSession (btree s)
    (mkStats (page_read st + 1) (block_read st + 1) (page_write st) (block_write st)).

Definition stat_write (s : WT_SESSION_IMPL) : WT_SESSION_IMPL :=
  let st := stats s in
  mkSession (btree s)
    (mkStats (page_read st) (block_read st) (page_write st + 1) (block_write st + 1)).

(** The source handed to the compressor or decompressor: [buf->mem + COMPRESS_SKIP],
    [buf->size - COMPRESS_SKIP] bytes.  The list ends where the memory
    ends: it is the source of the C code for a buffer whose size lies
    within its memory, which every statement that uses it assumes. *)
Definition payload (buf : WT_BUF) : list Z :=
  firstn (Z.to_nat (wrap32 (size buf - COMPRESS_SKIP)))
         (skipn (Z.to_nat COMPRESS_SKIP) (mem buf)).

(** *** [__wt_disk_read]

    [scr] is the scratch pool of [session] at the time of the call. *)
Definition __wt_disk_read (session : WT_SESSION_IMPL) (scr : WT_SCR) (buf : WT_BUF)
    (addr rsize : Z)
  : option wt_error * WT_BUF * WT_SESSION_IMPL :=
  let bt := btree session in
  match __wt_read (fh bt) (WT_ADDR_TO_OFF bt addr) rsize with
  | None => (Some IOFailure, buf, session)
  | Some data =>
    let m1 := store (mem buf) 0 data in
    let checksum := get F_checksum m1 in
    let m2 := set F_checksum m1 0 in
    let buf2 := mkBuf m2 (size buf) in
    if negb (checksum =? wrap32 (__wt_cksum (firstn (Z.to_nat rsize) m2)))
    then (Some ChecksumMismatch, buf2, session)
    else
      let session1 := stat_read session in
      if get F_size m2 =? get F_memsize m2 then (None, buf2, session1)
      else
        match __wt_scr_alloc scr (get F_memsize m2) with
        | None => (Some ScratchAllocFailed, buf2, session1)
        | Some tmp =>
          let t1 := memcpy (mem tmp) m2 (Z.to_nat COMPRESS_SKIP) in
          let src := payload buf2 in
          let dst_size := wrap32 (size tmp - COMPRESS_SKIP) in
          match compressor bt with
          | None => (Some NoCompressor, buf2, session1)
          | Some c =>
            match decompress c src dst_size with
            | None => (Some DecompressionFailed, buf2, session1)
            | Some out =>
              let t2 := store t1 (Z.to_nat COMPRESS_SKIP) out in
              (None, mkBuf t2 (size tmp), session1)
            end
          end
        end
  end.

(** *** [__wt_disk_write] *)

(** Where [dsk] points. *)
Inductive dsk_ref := DskBuf | DskTmp.

Record write_result := mkWR {
  w_ret : option wt_error;
  w_out : option (Z * Z);
  w_buf : WT_BUF;
  w_session : WT_SESSION_IMPL;
  w_dsk : dsk_ref;
  w_block : option (list Z)
}.

(** The block under the label [not_compressed]. *)
Definition not_compressed (buf : WT_BUF) (align_size : Z) : WT_BUF :=
  let m1 := memset (mem buf) (Z.to_nat (size buf)) 0
                   (Z.to_nat (wrap32 (align_size - size buf))) in
  let m2 := set F_memsize m1 align_size in
  let m3 := set F_size m2 align_size in
  mkBuf m3 align_size.

(** The [else] branch once compression was useful. *)
Definition compressed (buf tmp : WT_BUF) (out : list Z) (csize : Z) : WT_BUF :=
  let t1 := store (mem tmp) (Z.to_nat COMPRESS_SKIP) out in
  let tsize := wrap32 (Z.of_nat (length out) + COMPRESS_SKIP) in
  let t2 := memcpy t1 (mem buf) (Z.to_nat COMPRESS_SKIP) in
  let t3 := memset t2 (Z.to_nat tsize) 0 (Z.to_nat (wrap32 (csize - tsize))) in
  mkBuf (set F_size t3 csize) tsize.

(** The header stamp: the LSN, then the checksum of the first
    [align_size] bytes computed with the checksum field zeroed. *)
Definition stamp (m : list Z) (l align_size : Z) : list Z :=
  let d1 := set F_lsn m l in
  let d2 := set F_checksum d1 0 in
  set F_checksum d2 (wrap32 (__wt_cksum (firstn (Z.to_nat align_size) d2))).

(** From [__wt_block_alloc] to the end.  [buf] is the caller's buffer,
    [chosen] the buffer [dsk] points into ([buf] itself for [DskBuf]). *)
Definition write_tail (session : WT_SESSION_IMPL) (buf : WT_BUF) (d : dsk_ref)
    (chosen : WT_BUF) (align_size : Z) : write_result :=
  let bt := btree session in
  match __wt_block_alloc (block bt) align_size with
  | None => mkWR (Some AllocationFailed) None buf session d None
  | Some (addr, blk) =>
    let l := WT_LSN_INCR (lsn bt) in
    let d3 := stamp (mem chosen) l align_size in
    let buf' := match d with DskBuf => mkBuf d3 (size buf) | DskTmp => buf end in
    let image := firstn (Z.to_nat align_size) d3 in
    let session1 :=
      mkSession (mkBtree (allocsize bt) l (compressor bt) (fh bt) blk) (stats session) in
    match __wt_write (fh bt) (WT_ADDR_TO_OFF bt addr) align_size image with
    | None => mkWR (Some IOFailure) None buf' session1 d (Some image)
    | Some fh' =>
      let session2 :=
        stat_write
          (mkSession (mkBtree (allocsize bt) l (compressor bt) fh' blk) (stats session)) in
      mkWR None (Some (addr, align_size)) buf' session2 d (Some image)
    end
  end.

(** [dsk->size = dsk->memsize = buf->size;]  The [WT_ASSERT] on
    [__wt_verify_dsk] that follows it is a diagnostic and changes nothing. *)
Definition set_sizes (buf : WT_BUF) : WT_BUF :=
  mkBuf (set F_size (set F_memsize (mem buf) (size buf)) (size buf)) (size buf).

Definition write_uncompressed (session : WT_SESSION_IMPL) (buf1 : WT_BUF)
    (align_size : Z) : write_result :=
  let b := not_compressed buf1 align_size in
  write_tail session b DskBuf b align_size.

Definition __wt_disk_write (session : WT_SESSION_IMPL) (scr : WT_SCR) (buf : WT_BUF)
  : write_result :=
  let bt := btree session in
  let buf1 := set_sizes buf in
  let align_size := wrap32 (WT_ALIGN (size buf1) (allocsize bt)) in
  match compressor bt with
  | None => write_uncompressed session buf1 align_size
  | Some c =>
    if align_size =? allocsize bt then write_uncompressed session buf1 align_size
    else
      match __wt_scr_alloc scr (size buf1) with
      | None => mkWR (Some ScratchAllocFailed) None buf1 session DskBuf None
      | Some tmp =>
        let dst_size := wrap32 (size buf1 - COMPRESS_SKIP) in
        match compress c (payload buf1) dst_size with
        | None => write_uncompressed session buf1 align_size
        | Some out =>
          let tsize := wrap32 (Z.of_nat (length out) + COMPRESS_SKIP) in
          let csize := wrap32 (WT_ALIGN tsize (allocsize bt)) in
          if csize >=? align_size then write_uncompressed session buf1 align_size
          else write_tail session buf1 DskTmp (compressed buf1 tmp out csize) csize
        end
      end
  end.

(** A run of writes on one btree instance, the session threaded through;
    each write comes with the scratch pool as that call finds it. *)
Fixpoint write_all (session : WT_SESSION_IMPL) (reqs : list (WT_SCR * WT_BUF))
  : list write_result :=
  match reqs with
  | [] => []
  | (scr, b) :: rest =>
    let r := __wt_disk_write session scr b in
    r :: write_all (w_session r) rest
  end.

(** The LSNs found in the headers of the blocks that were persisted. *)
Fixpoint persisted_lsns (rs : list write_result) : list Z :=
  match rs with
  | [] => []
  | r :: rest =>
    match w_ret r, w_block r with
    | None, Some image => get F_lsn image :: persisted_lsns rest
    | _, _ => persisted_lsns rest
    end
  end.

(** The session a run of writes ends in, and how many of them succeeded. *)
Fixpoint session_after (session : WT_SESSION_IMPL) (reqs : list (WT_SCR * WT_BUF))
  : WT_SESSION_IMPL :=
  match reqs with
  | [] => session
  | (scr, b) :: rest =>
    session_after (w_session (__wt_disk_write session scr b)) rest
  end.

Definition succeeded (r : write_result) : bool :=
  match w_ret r with None => true | Some _ => false end.

End Model.

(** ** Caller contracts

    What the comments of [bt_rw.c] ask of its callers and collaborators. *)

(** A page image the writer may be handed for allocation unit [a]: it
    holds at least the 32 leading bytes, the buffer has room up to the
    next allocation-unit boundary ("our callers must allocate enough
    memory for the buffer so that we can do this operation"), and the
    aligned size fits the [uint32_t] it is kept in. *)
Definition valid_page (a : Z) (buf : WT_BUF) : Prop :=
  COMPRESS_SKIP <= size buf /\
  WT_ALIGN (size buf) a <= Z.of_nat (length (mem buf)) /\
  WT_ALIGN (size buf) a <= UINT32_MAX.

(** A compressor never writes past the destination it was given. *)
Definition respects_capacity (c : WT_COMPRESSOR) : Prop :=
  forall src cap out, compress c src cap = Some out -> Z.of_nat (length out) <= cap.

(** Decompression gives back what compression was given, also when the
    compressed bytes are followed by the zero padding of the block. *)
Definition decompress_inverts (c : WT_COMPRESSOR) : Prop :=
  forall src cap out pad,
    compress c src cap = Some out ->
    decompress c (out ++ repeat 0 pad) (Z.of_nat (length src)) = Some src.

Section Contracts.
Context {E : WT_ENV}.

(** Modelled from the spec: [__wt_scr_alloc], "acquire a scratch buffer of
    [n] bytes": the buffer handed out has size [n] and memory for it. *)
Definition scratch_sized : Prop :=
  forall scr n b, __wt_scr_alloc scr n = Some b ->
    size b = n /\ n <= Z.of_nat (length (mem b)).

Definition session_ok (s : WT_SESSION_IMPL) : Prop :=
  0 < allocsize (btree s) /\
  forall c, compressor (btree s) = Some c -> respects_capacity c.

(** The two blocks a write can hand to [__wt_write]: the caller's page
    image zero-padded to the aligned size, and the scratch buffer with
    the copied header and the compressor's output [out]. *)
Definition uncompressed_block (s : WT_SESSION_IMPL) (buf : WT_BUF) : list Z :=
  let A := WT_ALIGN (size buf) (allocsize (btree s)) in
  firstn (Z.to_nat A)
    (stamp (mem (not_compressed (set_sizes buf) A)) (WT_LSN_INCR (lsn (btree s))) A).

Definition compressed_block (s : WT_SESSION_IMPL) (buf tmp : WT_BUF) (out : list Z)
  : list Z :=
  let cs := WT_ALIGN (Z.of_nat (length out) + COMPRESS_SKIP) (allocsize (btree s)) in
  firstn (Z.to_nat cs)
    (stamp (mem (compressed (set_sizes buf) tmp out cs))
       (WT_LSN_INCR (lsn (btree s))) cs).

Definition read_ret (r : option wt_error * WT_BUF * WT_SESSION_IMPL) := fst (fst r).
Definition read_buf (r : option wt_error * WT_BUF * WT_SESSION_IMPL) := snd (fst r).
Definition read_session (r : option wt_error * WT_BUF * WT_SESSION_IMPL) := snd r.

End Contracts.

(** ** A small concrete environment

    A flat file, a bump allocator over 512-byte units, a djb2-style
    checksum, a scratch pool that is either ready ([true]: it hands out
    buffers filled with a non-zero pattern) or exhausted ([false]), and a
    compressor that only knows runs of one byte.  It is used to run the
    model on concrete pages. *)

Definition toy_cksum (bs : list Z) : Z :=
  fold_left (fun acc b => (acc * 33 + b) mod 2 ^ 32) bs 5381.

Definition toy_read (f : list Z) (off n : Z) : option (list Z) :=
  if (0 <=? off) && (off + n <=? Z.of_nat (length f))
  then Some (firstn (Z.to_nat n) (skipn (Z.to_nat off) f))
  else None.

Definition toy_write (f : list Z) (off n : Z) (data : list Z) : option (list Z) :=
  if 0 <=? off
  then
    let f' := f ++ repeat 0 (Z.to_nat (off + n) - length f) in
    Some (store f' (Z.to_nat off) (firstn (Z.to_nat n) data))
  else None.

Definition toy_block_alloc (next : Z) (n : Z) : option (Z * Z) :=
  if next + n / 512 <=? 64 then Some (next, next + n / 512) else None.

Definition toy_scr_alloc (ready : bool) (n : Z) : option WT_BUF :=
  if ready then Some (mkBuf (repeat 170 (Z.to_nat n)) n) else None.

Definition run_compress (src : list Z) (cap : Z) : option (list Z) :=
  match src with
  | x :: _ => if forallb (Z.eqb x) src && (1 <=? cap) then Some [x] else None
  | [] => None
  end.

Definition run_decompress (src : list Z) (cap : Z) : option (list Z) :=
  match src with
  | x :: _ => Some (repeat x (Z.to_nat cap))
  | [] => None
  end.

Definition run_compressor : WT_COMPRESSOR := mkCompressor run_compress run_decompress.

(** The stub of the specification's fallback property: it always fails. *)
Definition failing_compressor : WT_COMPRESSOR :=
  mkCompressor (fun _ _ => None) (fun _ _ => None).

#[local] Instance toy_env : WT_ENV := {
  WT_FH := list Z;
  WT_BLOCK := Z;
  WT_SCR := bool;
  __wt_cksum := toy_cksum;
  __wt_read := toy_read;
  __wt_write := toy_write;
  __wt_block_alloc := toy_block_alloc;
  __wt_scr_alloc := toy_scr_alloc
}.

Definition toy_session_on (f : list Z) (c : option WT_COMPRESSOR) (l : Z)
  : WT_SESSION_IMPL :=
  mkSession (mkBtree 512 l c f 0) (mkStats 0 0 0 0).

Definition toy_session (c : option WT_COMPRESSOR) (l : Z) : WT_SESSION_IMPL :=
  toy_session_on [] c l.

(** The same session with another compressor plugged in. *)
Definition with_compressor (s : WT_SESSION_IMPL) (c : option WT_COMPRESSOR)
  : WT_SESSION_IMPL :=
  let bt := btree s in
  mkSession (mkBtree (allocsize bt) (lsn bt) c (fh bt) (block bt)) (stats s).

(** A file whose only block was never written by this layer: its stored
    checksum is not the checksum of its bytes. *)
Definition toy_damaged_session : WT_SESSION_IMPL :=
  toy_session_on (repeat 1 512) (Some run_compressor) 7.

(** A 600-byte page image in a 1024-byte buffer: a header of 32 bytes,
    a payload of 568 bytes all equal to [b], and stale bytes in the slack. *)
Definition toy_page (b : Z) : WT_BUF :=
  mkBuf (repeat 9 32 ++ repeat b 568 ++ repeat 85 424) 600.

(** The same with a payload no run compressor accepts. *)
Definition toy_page_mixed : WT_BUF :=
  mkBuf (repeat 9 32 ++ [1; 2] ++ repeat 3 566 ++ repeat 85 424) 600.

(** The buffer a reader brings for a block of [n] bytes. *)
Definition toy_rbuf (n : Z) : WT_BUF := mkBuf (repeat 119 (Z.to_nat n)) n.

(** A 100-byte page image: it fits one allocation unit. *)
Definition toy_small_page : WT_BUF :=
  mkBuf (repeat 9 32 ++ repeat 7 68 ++ repeat 85 412) 100.

(** A session whose allocator has no unit left. *)
Definition toy_full_session : WT_SESSION_IMPL :=
  mkSession (mkBtree 512 7 (Some run_compressor) [] 64) (mkStats 0 0 0 0).

(** The same collaborators over a file that refuses every write. *)
Definition readonly_env : WT_ENV :=
  Build_WT_ENV (list Z) Z bool toy_cksum toy_read (fun _ _ _ _ => None)
    toy_block_alloc toy_scr_alloc.

Definition readonly_session : @WT_SESSION_IMPL readonly_env :=
  @mkSession readonly_env (@mkBtree readonly_env 512 7 None [] 0) (mkStats 0 0 0 0).

(** * Lemmas *)

(** ** Arithmetic of alignment and wrap-around *)

Lemma wrap32_small z : 0 <= z <= UINT32_MAX -> wrap32 z = z.
Proof. unfold wrap32, UINT32_MAX. intros H. apply Z.mod_small. lia. Qed.

Lemma WT_ALIGN_ge n a : 0 < a -> n <= WT_ALIGN n a.
Proof.
  intros Ha. unfold WT_ALIGN.
  pose proof (Z.mul_div_le (n + (a - 1)) a Ha).
  pose proof (Z.mod_pos_bound (n + (a - 1)) a Ha).
  pose proof (Z.div_mod (n + (a - 1)) a ltac:(lia)).
  lia.
Qed.

Lemma WT_ALIGN_lt n a : 0 < a -> WT_ALIGN n a < n + a.
Proof.
  intros Ha. unfold WT_ALIGN.
  pose proof (Z.mul_div_le (n + (a - 1)) a Ha). lia.
Qed.

Lemma WT_ALIGN_mod n a : WT_ALIGN n a mod a = 0.
Proof. unfold WT_ALIGN. apply Z_mod_mult. Qed.

Lemma WT_ALIGN_mono n m a : 0 < a -> n <= m -> WT_ALIGN n a <= WT_ALIGN m a.
Proof.
  intros Ha Hnm. unfold WT_ALIGN.
  apply Z.mul_le_mono_nonneg_r; [lia|].
  apply Z.div_le_mono; lia.
Qed.

(** For a power-of-two unit, rounding up is the usual add-and-mask. *)
Lemma WT_ALIGN_mask n k :
  0 <= k ->
  WT_ALIGN n (2 ^ k) = Z.land (n + (2 ^ k - 1)) (Z.lnot (2 ^ k - 1)).
Proof.
  intros Hk. unfold WT_ALIGN.
  replace (2 ^ k - 1) with (Z.ones k) by (rewrite Z.ones_equiv; lia).
  rewrite <- Z.ldiff_land.
  rewrite Z.ldiff_ones_r by lia.
  rewrite Z.shiftr_div_pow2, Z.shiftl_mul_pow2 by lia.
  reflexivity.
Qed.

(** Two distinct multiples of the allocation unit are a unit apart. *)
Lemma WT_ALIGN_gap n m a :
  0 < a -> WT_ALIGN n a < WT_ALIGN m a -> WT_ALIGN n a + a <= WT_ALIGN m a.
Proof.
  intros Ha. unfold WT_ALIGN.
  set (p := (n + (a - 1)) / a). set (q := (m + (a - 1)) / a).
  intros H. assert (p < q) by nia. nia.
Qed.

(** ** Raw memory *)

Lemma length_le_bytes n v : length (le_bytes n v) = n.
Proof. revert v. induction n; intros; simpl; auto. Qed.

Lemma le_value_le_bytes n v : le_value (le_bytes n v) = v mod 256 ^ Z.of_nat n.
Proof.
  revert v. induction n as [|n IH]; intros v.
  - simpl. now rewrite Z.mod_1_r.
  - cbn [le_bytes le_value]. rewrite IH.
    rewrite Nat2Z.inj_succ, Z.pow_succ_r by lia.
    rewrite (Z.rem_mul_r v 256 (256 ^ Z.of_nat n)) by lia. reflexivity.
Qed.

Lemma length_store m off data :
  length (store m off data)
  = (Nat.min off (length m) + length data + (length m - (off + length data)))%nat.
Proof. unfold store. rewrite !length_app, length_firstn, length_skipn. lia. Qed.

Ltac list_len :=
  unfold set, memcpy, memset;
  repeat (rewrite ?length_store, ?length_app, ?length_firstn, ?length_skipn,
            ?repeat_length, ?length_le_bytes;
          cbn [length f_off f_len F_checksum F_size F_memsize F_lsn]);
  try lia.

Lemma store_app_l a b off data :
  (off + length data <= length a)%nat ->
  store (a ++ b) off data = store a off data ++ b.
Proof.
  intros H. unfold store.
  rewrite firstn_app, skipn_app.
  replace (off - length a)%nat with 0%nat by lia.
  replace (off + length data - length a)%nat with 0%nat by lia.
  cbn [firstn skipn]. now rewrite app_nil_r, <- !app_assoc.
Qed.

Lemma store_app_r a b off data :
  (length a <= off)%nat ->
  store (a ++ b) off data = a ++ store b (off - length a) data.
Proof.
  intros H. unfold store.
  rewrite firstn_app, skipn_app.
  rewrite (firstn_all2 a) by lia. rewrite (skipn_all2 a) by lia.
  replace (off + length data - length a)%nat
    with (off - length a + length data)%nat by lia.
  cbn [app]. now rewrite <- !app_assoc.
Qed.

Lemma store_0 m data :
  store m 0 data = data ++ skipn (length data) m.
Proof. reflexivity. Qed.

Lemma store_store m off d1 d2 :
  (off <= length m)%nat -> length d1 = length d2 ->
  store (store m off d1) off d2 = store m off d2.
Proof.
  intros Hoff Hlen. unfold store.
  rewrite firstn_app, firstn_firstn, Nat.min_id, length_firstn.
  replace (off - Nat.min off (length m))%nat with 0%nat by lia.
  cbn [firstn]. rewrite app_nil_r. f_equal. f_equal.
  rewrite skipn_app, length_firstn.
  rewrite (skipn_all2 (firstn off m)) by (rewrite length_firstn; lia).
  cbn [app]. rewrite skipn_app.
  rewrite (skipn_all2 d1) by lia. cbn [app].
  rewrite skipn_skipn. f_equal. lia.
Qed.

Lemma firstn_store_lt m off data n :
  (n <= off)%nat -> (off <= length m)%nat ->
  firstn n (store m off data) = firstn n m.
Proof.
  intros H1 H2. unfold store.
  rewrite firstn_app, firstn_firstn, length_firstn.
  replace (n - Nat.min off (length m))%nat with 0%nat by lia.
  cbn [firstn]. rewrite app_nil_r. f_equal. lia.
Qed.

Lemma skipn_store_ge m off data n :
  (off + length data <= n)%nat -> (off <= length m)%nat ->
  skipn n (store m off data) = skipn n m.
Proof.
  intros H1 H2. unfold store.
  rewrite skipn_app, length_firstn.
  rewrite (skipn_all2 (firstn off m)) by (rewrite length_firstn; lia).
  cbn [app]. rewrite skipn_app, (skipn_all2 data) by lia.
  cbn [app]. rewrite skipn_skipn. f_equal. lia.
Qed.

Lemma load_app_l a b off n :
  (off + n <= length a)%nat -> load (a ++ b) off n = load a off n.
Proof.
  intros H. unfold load. rewrite skipn_app, firstn_app, length_skipn.
  replace (n - (length a - off))%nat with 0%nat by lia.
  cbn [firstn]. now rewrite app_nil_r.
Qed.

Lemma load_firstn m k off n :
  (off + n <= k)%nat -> load (firstn k m) off n = load m off n.
Proof.
  intros H. unfold load.
  rewrite skipn_firstn_comm, firstn_firstn. f_equal. f_equal. lia.
Qed.

Lemma load_store_same m off data :
  (off <= length m)%nat -> load (store m off data) off (length data) = le_value data.
Proof.
  intros H. unfold load, store.
  rewrite skipn_app, length_firstn.
  rewrite (skipn_all2 (firstn off m)) by (rewrite length_firstn; lia).
  replace (off - Nat.min off (length m))%nat with 0%nat by lia.
  cbn [app skipn]. rewrite firstn_app, firstn_all, Nat.sub_diag.
  cbn [firstn]. now rewrite app_nil_r.
Qed.

Lemma load_store_before m off data o n :
  (o + n <= off)%nat -> (off <= length m)%nat ->
  load (store m off data) o n = load m o n.
Proof.
  intros H1 H2.
  rewrite <- (load_firstn (store m off data) off) by lia.
  rewrite firstn_store_lt by lia. apply load_firstn. lia.
Qed.

Lemma load_store_after m off data o n :
  (off + length data <= o)%nat -> (off <= length m)%nat ->
  load (store m off data) o n = load m o n.
Proof.
  intros H1 H2. unfold load. now rewrite skipn_store_ge by lia.
Qed.

(** ** Header fields *)

Lemma get_set f m v :
  (f_off f <= length m)%nat -> get f (set f m v) = v mod 256 ^ Z.of_nat (f_len f).
Proof.
  intros H. unfold get, set.
  rewrite <- (length_le_bytes (f_len f) v) at 2.
  rewrite load_store_same by lia. apply le_value_le_bytes.
Qed.

Lemma get_set_other f g m v :
  disjoint f g -> (f_off g <= length m)%nat -> get f (set g m v) = get f m.
Proof.
  intros [H|H] Hg; unfold get, set.
  - apply load_store_before; lia.
  - apply load_store_after; rewrite ?length_le_bytes; lia.
Qed.

Lemma get_store_after f m off data :
  (f_off f + f_len f <= off)%nat -> (off <= length m)%nat ->
  get f (store m off data) = get f m.
Proof. intros. unfold get. now apply load_store_before. Qed.

Lemma get_firstn f m k :
  (f_off f + f_len f <= k)%nat -> get f (firstn k m) = get f m.
Proof. intros. unfold get. now apply load_firstn. Qed.

Lemma get_app_l f a b :
  (f_off f + f_len f <= length a)%nat -> get f (a ++ b) = get f a.
Proof. intros. unfold get. now apply load_app_l. Qed.

Lemma set_app_l f a b v :
  (f_off f + f_len f <= length a)%nat -> set f (a ++ b) v = set f a v ++ b.
Proof. intros. unfold set. apply store_app_l. now rewrite length_le_bytes. Qed.

Lemma set_set f m v w :
  (f_off f <= length m)%nat -> set f (set f m v) w = set f m w.
Proof.
  intros. unfold set. apply store_store; [lia|]. now rewrite !length_le_bytes.
Qed.

Lemma length_set f m v :
  (f_off f + f_len f <= length m)%nat -> length (set f m v) = length m.
Proof. intros. list_len. Qed.

(** ** Reading *)

Section Read.
Context {E : WT_ENV}.

(** The checksum field of a region whose first four bytes are zero. *)
Lemma get_checksum_zeroed m v :
  get F_checksum (set F_checksum m 0 ++ v) = 0
  /\ exists rest, set F_checksum m 0 = [0; 0; 0; 0] ++ rest.
Proof.
  split.
  - unfold set, store. cbn [f_off f_len F_checksum firstn le_bytes app]. reflexivity.
  - eexists. unfold set, store. cbn [f_off f_len F_checksum firstn le_bytes app].
    reflexivity.
Qed.

(** C8: the read fails with the checksum error exactly when the stored
    checksum differs from the one recomputed over the [rsize] bytes with
    the checksum field zeroed; on a mismatch the function returns at once:
    the session (statistics included) is the one it was given, and the
    buffer is the caller's own memory holding the bytes read with the
    checksum field zeroed, whatever compressor is configured. *)
Theorem read_checksum_mismatch_iff s scr buf addr rsize data :
  __wt_read (fh (btree s)) (WT_ADDR_TO_OFF (btree s) addr) rsize = Some data ->
  let m1 := store (mem buf) 0 data in
  let m2 := set F_checksum m1 0 in
  let stored := get F_checksum m1 in
  let recomputed := wrap32 (__wt_cksum (firstn (Z.to_nat rsize) m2)) in
  (read_ret (__wt_disk_read s scr buf addr rsize) = Some ChecksumMismatch
     <-> stored <> recomputed)
  /\ (stored <> recomputed ->
      __wt_disk_read s scr buf addr rsize
      = (Some ChecksumMismatch, mkBuf m2 (size buf), s)).
Proof.
  intros Hrd m1 m2 stored recomputed.
  unfold __wt_disk_read. rewrite Hrd.
  fold m1. fold m2. fold stored. fold recomputed.
  destruct (Z.eqb_spec stored recomputed) as [Heq|Hne]; cbn [negb].
  - split; [split|]; [|congruence..].
    intros H. exfalso. revert H.
    destruct (get F_size m2 =? get F_memsize m2); [discriminate|].
    destruct (__wt_scr_alloc _ _); [|discriminate].
    destruct (compressor _); [|discriminate].
    destruct (decompress _ _ _); discriminate.
  - split; [split|]; auto.
Qed.

(** C9: after a successful read the buffer handed back begins with the
    four bytes of the checksum field and all four are zero, so the field
    reads zero, on the uncompressed path and on the decompressed one. *)
Theorem read_success_checksum_zero s scr buf addr rsize :
  read_ret (__wt_disk_read s scr buf addr rsize) = None ->
  firstn 4 (mem (read_buf (__wt_disk_read s scr buf addr rsize))) = [0; 0; 0; 0]
  /\ get F_checksum (mem (read_buf (__wt_disk_read s scr buf addr rsize))) = 0.
Proof.
  intros Hret.
  assert (Hz : exists rest,
             mem (read_buf (__wt_disk_read s scr buf addr rsize))
             = [0; 0; 0; 0] ++ rest).
  { revert Hret. unfold __wt_disk_read.
    destruct (__wt_read _ _ _) as [data|]; [|discriminate].
    set (m1 := store (mem buf) 0 data).
    destruct (get_checksum_zeroed m1 []) as [_ [rest Hrest]].
    destruct (negb _); [discriminate|].
    destruct (get F_size _ =? get F_memsize _).
    - intros _. cbn [read_buf fst snd mem]. exists rest. exact Hrest.
    - destruct (__wt_scr_alloc _ _) as [tmp|]; [|discriminate].
      destruct (compressor _) as [c|]; [|discriminate].
      destruct (decompress _ _ _) as [out|]; [|discriminate].
      intros _. cbn [read_buf fst snd mem].
      rewrite Hrest. unfold memcpy. rewrite store_0.
      change (Z.to_nat COMPRESS_SKIP) with 32%nat.
      cbn [firstn app].
      match goal with
      | |- exists r, store (0 :: 0 :: 0 :: 0 :: ?x) ?o ?d = _ =>
          change (0 :: 0 :: 0 :: 0 :: x) with ([0; 0; 0; 0] ++ x);
          rewrite (store_app_r [0; 0; 0; 0] x o d) by (simpl; lia)
      end.
      eexists. reflexivity. }
  destruct Hz as [rest ->]. split; reflexivity.
Qed.

(** C2, as the code has it: when a read fails on the checksum or in the
    decompressor, the buffer handed back is still the caller's own (same
    size field, never the scratch buffer), and its memory holds the bytes
    that were read from the file with the checksum field zeroed. *)
Theorem read_failure_buffer s scr buf addr rsize e :
  read_ret (__wt_disk_read s scr buf addr rsize) = Some e ->
  e = ChecksumMismatch \/ e = DecompressionFailed ->
  exists data,
    __wt_read (fh (btree s)) (WT_ADDR_TO_OFF (btree s) addr) rsize = Some data
    /\ read_buf (__wt_disk_read s scr buf addr rsize)
       = mkBuf (set F_checksum (store (mem buf) 0 data) 0) (size buf).
Proof.
  unfold __wt_disk_read.
  destruct (__wt_read _ _ _) as [data|].
  - intros H He. exists data. split; [reflexivity|]. revert H.
    destruct (negb _); [reflexivity|].
    destruct (get F_size _ =? get F_memsize _); [reflexivity|].
    destruct (__wt_scr_alloc _ _) as [tmp|]; [|reflexivity].
    destruct (compressor _) as [c|]; [|reflexivity].
    destruct (decompress _ _ _) as [out|]; [|reflexivity].
    discriminate.
  - cbn. intros H [He|He]; congruence.
Qed.

End Read.

(** ** Writing *)

Section Write.
Context {E : WT_ENV}.

Lemma disjoint_size_lsn : disjoint F_size F_lsn.
Proof. left. simpl. lia. Qed.
Lemma disjoint_size_checksum : disjoint F_size F_checksum.
Proof. right. simpl. lia. Qed.
Lemma disjoint_memsize_lsn : disjoint F_memsize F_lsn.
Proof. left. simpl. lia. Qed.
Lemma disjoint_memsize_checksum : disjoint F_memsize F_checksum.
Proof. right. simpl. lia. Qed.
Lemma disjoint_memsize_size : disjoint F_memsize F_size.
Proof. right. simpl. lia. Qed.
Lemma disjoint_size_memsize : disjoint F_size F_memsize.
Proof. left. simpl. lia. Qed.
Lemma disjoint_lsn_checksum : disjoint F_lsn F_checksum.
Proof. right. simpl. lia. Qed.

Lemma get_stamp f m l A :
  disjoint f F_lsn -> disjoint f F_checksum -> (12 <= length m)%nat ->
  get f (stamp m l A) = get f m.
Proof.
  intros Hl Hc Hm. unfold stamp.
  rewrite !get_set_other; auto; simpl; lia.
Qed.

Lemma get_lsn_stamp m l A :
  (12 <= length m)%nat -> get F_lsn (stamp m l A) = wrap64 l.
Proof.
  intros Hm. unfold stamp.
  rewrite !(get_set_other F_lsn F_checksum) by (auto using disjoint_lsn_checksum; simpl; lia).
  rewrite get_set by (simpl; lia). reflexivity.
Qed.

Lemma get_size_set_sizes buf :
  (8 <= length (mem buf))%nat ->
  get F_size (mem (set_sizes buf)) = wrap32 (size buf)
  /\ get F_memsize (mem (set_sizes buf)) = wrap32 (size buf).
Proof.
  intros H. unfold set_sizes. cbn [mem]. split.
  - rewrite get_set; [reflexivity|]. list_len.
  - rewrite get_set_other by (auto using disjoint_memsize_size; list_len).
    rewrite get_set; [reflexivity|]. simpl. lia.
Qed.

Lemma length_set_sizes buf :
  (12 <= length (mem buf))%nat -> length (mem (set_sizes buf)) = length (mem buf).
Proof. intros H. unfold set_sizes. cbn [mem]. list_len. Qed.

Lemma skipn_set_sizes buf n :
  (12 <= n)%nat -> (12 <= length (mem buf))%nat ->
  skipn n (mem (set_sizes buf)) = skipn n (mem buf).
Proof.
  intros Hn H. unfold set_sizes, set. cbn [mem].
  rewrite !skipn_store_ge; auto; list_len.
Qed.

Lemma payload_set_sizes buf :
  (12 <= length (mem buf))%nat -> payload (set_sizes buf) = payload buf.
Proof.
  intros H. unfold payload.
  rewrite skipn_set_sizes; auto. change (Z.to_nat COMPRESS_SKIP) with 32%nat. lia.
Qed.

(** The header of the buffer left by the [not_compressed] block. *)
Lemma not_compressed_header buf A :
  (12 <= length (mem buf))%nat -> 12 <= size buf ->
  get F_size (mem (not_compressed buf A)) = wrap32 A
  /\ get F_memsize (mem (not_compressed buf A)) = wrap32 A
  /\ (12 <= length (mem (not_compressed buf A)))%nat.
Proof.
  intros Hm Hs. unfold not_compressed. cbn [mem].
  assert (Hl : (12 <= length (memset (mem buf) (Z.to_nat (size buf)) 0
                   (Z.to_nat (wrap32 (A - size buf)))))%nat) by list_len.
  repeat split.
  - rewrite get_set; [reflexivity|]. revert Hl. list_len.
  - rewrite get_set_other by (auto using disjoint_memsize_size; revert Hl; list_len).
    rewrite get_set; [reflexivity|]. revert Hl. list_len.
  - revert Hl. list_len.
Qed.

(** The header of the scratch buffer once the compressed form is adopted:
    [memsize] is the one copied from the caller's buffer. *)
Lemma compressed_header buf tmp out cs :
  (32 <= length (mem buf))%nat -> (32 <= length (mem tmp))%nat ->
  Z.of_nat (length out) + COMPRESS_SKIP <= UINT32_MAX ->
  get F_size (mem (compressed buf tmp out cs)) = wrap32 cs
  /\ get F_memsize (mem (compressed buf tmp out cs)) = get F_memsize (mem buf)
  /\ (32 <= length (mem (compressed buf tmp out cs)))%nat.
Proof.
  intros Hb Ht Ho. unfold compressed. cbn [mem].
  rewrite (wrap32_small (Z.of_nat (length out) + COMPRESS_SKIP))
    by (unfold COMPRESS_SKIP in *; lia).
  change (Z.to_nat COMPRESS_SKIP) with 32%nat.
  set (ts := Z.to_nat (Z.of_nat (length out) + COMPRESS_SKIP)).
  set (k := Z.to_nat (wrap32 _)).
  assert (Hts : (32 <= ts)%nat) by (unfold ts, COMPRESS_SKIP; lia).
  set (t1 := store (mem tmp) 32 out).
  assert (H1 : (32 + length out <= length t1)%nat) by (unfold t1; list_len).
  set (t2 := memcpy t1 (mem buf) 32).
  assert (H2 : (ts <= length t2)%nat).
  { unfold t2, ts, COMPRESS_SKIP. list_len. }
  set (t3 := memset t2 ts 0 k).
  assert (H3 : (32 <= length t3)%nat) by (unfold t3; list_len).
  repeat split.
  - rewrite get_set; [reflexivity|]. cbn [f_off F_size]. lia.
  - rewrite get_set_other by (auto using disjoint_memsize_size; cbn [f_off F_size]; lia).
    unfold t3, memset.
    rewrite get_store_after by (cbn [f_off f_len F_memsize]; lia).
    unfold t2, memcpy. rewrite store_0.
    rewrite get_app_l by list_len.
    apply get_firstn. cbn [f_off f_len F_memsize]. lia.
  - revert H3. list_len.
Qed.

(** What a successful tail returns. *)
Lemma write_tail_success s buf d ch A :
  w_ret (write_tail s buf d ch A) = None ->
  exists addr,
    w_out (write_tail s buf d ch A) = Some (addr, A)
    /\ w_dsk (write_tail s buf d ch A) = d
    /\ w_block (write_tail s buf d ch A)
       = Some (firstn (Z.to_nat A) (stamp (mem ch) (WT_LSN_INCR (lsn (btree s))) A)).
Proof.
  unfold write_tail.
  destruct (__wt_block_alloc _ _) as [[addr blk]|]; [|discriminate].
  destruct (__wt_write _ _ _ _) as [fh'|]; [|discriminate].
  intros _. exists addr. cbn. auto.
Qed.

Lemma write_tail_dsk s buf d ch A : w_dsk (write_tail s buf d ch A) = d.
Proof.
  unfold write_tail.
  destruct (__wt_block_alloc _ _) as [[addr blk]|]; [|reflexivity].
  destruct (__wt_write _ _ _ _); reflexivity.
Qed.

End Write.

Section WritePaths.
Context {E : WT_ENV}.
Variables (s : WT_SESSION_IMPL) (scr : WT_SCR) (buf : WT_BUF).
Local Abbreviation a := (allocsize (btree s)).
Local Abbreviation S := (size buf).
Local Abbreviation A := (WT_ALIGN (size buf) (allocsize (btree s))).

Hypothesis Hs : session_ok s.
Hypothesis Hv : valid_page (allocsize (btree s)) buf.

Lemma valid_page_facts :
  0 < a /\ 32 <= S /\ S <= A /\ A < S + a /\ A <= UINT32_MAX
  /\ A <= Z.of_nat (length (mem buf)) /\ wrap32 A = A /\ wrap32 S = S
  /\ wrap32 (S - COMPRESS_SKIP) = S - 32.
Proof.
  destruct Hs as [Ha _]. destruct Hv as (H1 & H2 & H3).
  unfold COMPRESS_SKIP in *.
  pose proof (WT_ALIGN_ge S a Ha) as Hge. pose proof (WT_ALIGN_lt S a Ha) as Hlt.
  repeat split; try lia; try (apply wrap32_small; lia).
Qed.

(** Once the compressor was called and returned [out]: the compressed
    form is adopted exactly when its aligned size is smaller. *)
Lemma write_attempt c tmp out :
  compressor (btree s) = Some c -> A <> a ->
  __wt_scr_alloc scr S = Some tmp ->
  compress c (payload buf) (S - COMPRESS_SKIP) = Some out ->
  let cs := WT_ALIGN (Z.of_nat (length out) + COMPRESS_SKIP) a in
  Z.of_nat (length out) + 32 <= S
  /\ __wt_disk_write s scr buf
     = if cs <? A
       then write_tail s (set_sizes buf) DskTmp
              (compressed (set_sizes buf) tmp out cs) cs
       else write_uncompressed s (set_sizes buf) A.
Proof.
  intros Hc Hne Htmp Hout cs.
  destruct valid_page_facts as (Ha & HS & HSA & HAS & HA & Hm & WA & WS & WP).
  assert (Hlen : Z.of_nat (length out) <= S - 32).
  { destruct Hs as [_ Hcap]. exact (Hcap c Hc _ _ _ Hout). }
  split; [lia|].
  unfold __wt_disk_write.
  change (size (set_sizes buf)) with S.
  change (WT_ALIGN S (allocsize (btree s))) with A.
  change (allocsize (btree s)) with a.
  rewrite WA, WP, Hc.
  destruct (Z.eqb_spec A a); [contradiction|].
  rewrite Htmp, payload_set_sizes by lia.
  change (S - 32) with (S - COMPRESS_SKIP). rewrite Hout.
  rewrite (wrap32_small (Z.of_nat (length out) + COMPRESS_SKIP))
    by (unfold COMPRESS_SKIP; lia).
  fold cs.
  pose proof (WT_ALIGN_ge (Z.of_nat (length out) + COMPRESS_SKIP) a Ha) as Hge.
  assert (Hcs : cs <= A).
  { apply WT_ALIGN_mono; unfold COMPRESS_SKIP; lia. }
  fold cs in Hge.
  rewrite (wrap32_small cs) by (unfold COMPRESS_SKIP in *; lia).
  destruct (Z.geb_spec cs A), (Z.ltb_spec cs A); try lia; reflexivity.
Qed.

(** The three ways through the compression decision. *)
Lemma write_paths :
  __wt_disk_write s scr buf = write_uncompressed s (set_sizes buf) A
  \/ __wt_disk_write s scr buf
     = mkWR (Some ScratchAllocFailed) None (set_sizes buf) s DskBuf None
  \/ exists c tmp out,
       compressor (btree s) = Some c /\ A <> a
       /\ __wt_scr_alloc scr S = Some tmp
       /\ compress c (payload buf) (S - COMPRESS_SKIP) = Some out
       /\ Z.of_nat (length out) + 32 <= S
       /\ WT_ALIGN (Z.of_nat (length out) + COMPRESS_SKIP) a < A
       /\ __wt_disk_write s scr buf
          = write_tail s (set_sizes buf) DskTmp
              (compressed (set_sizes buf) tmp out
                 (WT_ALIGN (Z.of_nat (length out) + COMPRESS_SKIP) a))
              (WT_ALIGN (Z.of_nat (length out) + COMPRESS_SKIP) a).
Proof.
  destruct valid_page_facts as (Ha & HS & HSA & HAS & HA & Hm & WA & WS & WP).
  destruct (compressor (btree s)) as [c|] eqn:Hc.
  2:{ left. unfold __wt_disk_write. rewrite Hc.
      change (size (set_sizes buf)) with S.
      change (WT_ALIGN S (allocsize (btree s))) with A. now rewrite WA. }
  destruct (Z.eq_dec A a) as [He|Hne].
  { left. unfold __wt_disk_write. rewrite Hc.
    change (size (set_sizes buf)) with S.
    change (WT_ALIGN S (allocsize (btree s))) with A.
    change (allocsize (btree s)) with a.
    rewrite WA. destruct (Z.eqb_spec A a); [reflexivity|contradiction]. }
  destruct (__wt_scr_alloc scr S) as [tmp|] eqn:Htmp.
  2:{ right; left. unfold __wt_disk_write. rewrite Hc.
      change (size (set_sizes buf)) with S.
      change (WT_ALIGN S (allocsize (btree s))) with A.
      change (allocsize (btree s)) with a.
      rewrite WA. destruct (Z.eqb_spec A a); [contradiction|].
      now rewrite Htmp. }
  destruct (compress c (payload buf) (S - COMPRESS_SKIP)) as [out|] eqn:Hout.
  2:{ left. unfold __wt_disk_write. rewrite Hc.
      change (size (set_sizes buf)) with S.
      change (WT_ALIGN S (allocsize (btree s))) with A.
      change (allocsize (btree s)) with a.
      rewrite WA, WP. destruct (Z.eqb_spec A a); [contradiction|].
      rewrite Htmp, payload_set_sizes by lia.
      change (S - 32) with (S - COMPRESS_SKIP). now rewrite Hout. }
  destruct (write_attempt c tmp out Hc Hne Htmp Hout) as [Hlen Hw].
  cbv zeta in Hw.
  destruct (Z.ltb_spec (WT_ALIGN (Z.of_nat (length out) + COMPRESS_SKIP) a) A)
    as [Hlt|Hge]; [|now left].
  right; right. exists c, tmp, out. repeat split; auto.
Qed.

End WritePaths.

Section WriteImages.
Context {E : WT_ENV}.
Variables (s : WT_SESSION_IMPL) (scr : WT_SCR) (buf : WT_BUF).
Local Abbreviation a := (allocsize (btree s)).
Local Abbreviation S := (size buf).
Local Abbreviation A := (WT_ALIGN (size buf) (allocsize (btree s))).

Hypothesis Hs : session_ok s.
Hypothesis Hv : valid_page (allocsize (btree s)) buf.

Lemma wrap64_LSN_INCR l : wrap64 (WT_LSN_INCR l) = WT_LSN_INCR l.
Proof. unfold WT_LSN_INCR, wrap64. apply Z.mod_mod. lia. Qed.

(** Header fields of the first [n] bytes of a stamped region. *)
Lemma image_header m l n :
  (32 <= length m)%nat -> 32 <= n ->
  let image := firstn (Z.to_nat n) (stamp m (WT_LSN_INCR l) n) in
  get F_size image = get F_size m
  /\ get F_memsize image = get F_memsize m
  /\ get F_lsn image = WT_LSN_INCR l.
Proof.
  intros Hm Hn image. unfold image.
  rewrite !get_firstn by (cbn [f_off f_len F_size F_memsize F_lsn]; lia).
  rewrite !get_stamp
    by (auto using disjoint_size_lsn, disjoint_size_checksum,
          disjoint_memsize_lsn, disjoint_memsize_checksum; lia).
  rewrite get_lsn_stamp by lia. auto using wrap64_LSN_INCR.
Qed.

Lemma length_stamp m l n :
  (20 <= length m)%nat -> length (stamp m l n) = length m.
Proof. intros H. unfold stamp. list_len. Qed.

Lemma skipn_stamp m l n k :
  (20 <= k)%nat -> (20 <= length m)%nat -> skipn k (stamp m l n) = skipn k m.
Proof.
  intros Hk Hm. unfold stamp, set.
  rewrite !skipn_store_ge; auto; list_len.
Qed.

(** The block persisted on the uncompressed path. *)
Lemma uncompressed_image :
  w_ret (write_uncompressed s (set_sizes buf) A) = None ->
  exists addr image,
    w_out (write_uncompressed s (set_sizes buf) A) = Some (addr, A)
    /\ w_dsk (write_uncompressed s (set_sizes buf) A) = DskBuf
    /\ w_block (write_uncompressed s (set_sizes buf) A) = Some image
    /\ image = uncompressed_block s buf
    /\ get F_size image = A /\ get F_memsize image = A
    /\ get F_lsn image = WT_LSN_INCR (lsn (btree s))
    /\ Z.of_nat (length image) = A
    /\ skipn (Z.to_nat S) image = repeat 0 (Z.to_nat (A - S)).
Proof.
  intros Hret.
  destruct (valid_page_facts s buf Hs Hv)
    as (Ha & HS & HSA & HAS & HA & Hm & WA & WS & WP).
  unfold write_uncompressed in *.
  destruct (write_tail_success _ _ _ _ _ Hret) as (addr & Hout & Hdsk & Hblk).
  exists addr. eexists. split; [exact Hout|]. split; [exact Hdsk|].
  split; [exact Hblk|]. split; [reflexivity|].
  change (firstn _ (stamp _ _ _)) with (uncompressed_block s buf).
  unfold uncompressed_block. cbv zeta.
  set (M := mem (not_compressed (set_sizes buf) A)).
  assert (Hls : length (mem (set_sizes buf)) = length (mem buf))
    by (apply length_set_sizes; lia).
  destruct (not_compressed_header (set_sizes buf) A) as (H1 & H2 & H3);
    [lia | cbn [set_sizes size]; lia |].
  fold M in H1, H2, H3.
  assert (HM : length M = length (mem buf)).
  { unfold M, not_compressed. cbn [mem]. change (size (set_sizes buf)) with S.
    list_len. rewrite Hls. rewrite WA in *.
    rewrite (wrap32_small (A - S)) by lia. lia. }
  destruct (image_header M (lsn (btree s)) A) as (I1 & I2 & I3); [lia|lia|].
  rewrite I1, I2, I3, H1, H2, WA. repeat split; auto.
  - rewrite length_firstn, length_stamp by lia. lia.
  - rewrite skipn_firstn_comm, skipn_stamp by lia.
    unfold M, not_compressed. cbn [mem]. unfold set.
    change (size (set_sizes buf)) with S.
    rewrite !skipn_store_ge by list_len.
    unfold memset, store.
    rewrite skipn_app, length_firstn.
    rewrite skipn_all2 by (rewrite length_firstn; lia).
    replace (Z.to_nat S - Nat.min (Z.to_nat S) (length (mem (set_sizes buf))))%nat
      with 0%nat by lia.
    cbn [app skipn]. rewrite (wrap32_small (A - S)) by lia.
    rewrite firstn_app, repeat_length.
    replace (Z.to_nat A - Z.to_nat S)%nat with (Z.to_nat (A - S)) by lia.
    rewrite firstn_all2 by (rewrite repeat_length; lia).
    rewrite Nat.sub_diag. cbn [firstn]. apply app_nil_r.
Qed.

End WriteImages.

Section WriteClaims.
Context {E : WT_ENV}.
Variables (s : WT_SESSION_IMPL) (scr : WT_SCR) (buf : WT_BUF).
Local Abbreviation a := (allocsize (btree s)).
Local Abbreviation S := (size buf).
Local Abbreviation A := (WT_ALIGN (size buf) (allocsize (btree s))).

Hypothesis Hs : session_ok s.
Hypothesis Hv : valid_page (allocsize (btree s)) buf.

(** The block persisted when the compressed form is adopted. *)
Lemma compressed_image tmp out :
  scratch_sized -> __wt_scr_alloc scr S = Some tmp ->
  Z.of_nat (length out) + 32 <= S ->
  let cs := WT_ALIGN (Z.of_nat (length out) + COMPRESS_SKIP) a in
  let r := write_tail s (set_sizes buf) DskTmp
             (compressed (set_sizes buf) tmp out cs) cs in
  w_ret r = None ->
  exists addr image,
    w_out r = Some (addr, cs) /\ w_dsk r = DskTmp /\ w_block r = Some image
    /\ image = compressed_block s buf tmp out
    /\ get F_size image = cs /\ get F_memsize image = S
    /\ get F_lsn image = WT_LSN_INCR (lsn (btree s)).
Proof.
  intros Hscr Htmp Hlen cs r Hret.
  destruct (valid_page_facts s buf Hs Hv)
    as (Ha & HS & HSA & HAS & HA & Hm & WA & WS & WP).
  destruct (Hscr _ _ _ Htmp) as [_ Hcap].
  destruct (write_tail_success _ _ _ _ _ Hret) as (addr & Hout & Hdsk & Hblk).
  exists addr. eexists. split; [exact Hout|]. split; [exact Hdsk|].
  split; [exact Hblk|]. split; [reflexivity|].
  assert (Hcs : 32 <= cs <= UINT32_MAX).
  { pose proof (WT_ALIGN_ge (Z.of_nat (length out) + COMPRESS_SKIP) a Ha).
    pose proof (WT_ALIGN_mono (Z.of_nat (length out) + COMPRESS_SKIP) S a Ha).
    unfold cs, COMPRESS_SKIP in *. lia. }
  destruct (compressed_header (set_sizes buf) tmp out cs) as (H1 & H2 & H3).
  { rewrite length_set_sizes; lia. }
  { lia. }
  { unfold COMPRESS_SKIP. lia. }
  destruct (image_header (mem (compressed (set_sizes buf) tmp out cs))
              (lsn (btree s)) cs) as (I1 & I2 & I3); [lia|lia|].
  rewrite I1, I2, I3, H1, H2.
  destruct (get_size_set_sizes buf) as [_ G]; [lia|].
  rewrite G, WS, wrap32_small by lia. auto.
Qed.

(** C5: the size returned by a successful write is a non-zero multiple of
    the allocation unit: the aligned buffer size on the uncompressed
    path, the aligned size of header plus compressed bytes otherwise. *)
Theorem write_size_aligned :
  w_ret (__wt_disk_write s scr buf) = None ->
  exists addr sz,
    w_out (__wt_disk_write s scr buf) = Some (addr, sz)
    /\ 0 < sz /\ sz mod a = 0
    /\ match w_dsk (__wt_disk_write s scr buf) with
       | DskBuf => sz = WT_ALIGN S a
       | DskTmp =>
         exists c out,
           compressor (btree s) = Some c
           /\ compress c (payload buf) (S - COMPRESS_SKIP) = Some out
           /\ sz = WT_ALIGN (Z.of_nat (length out) + COMPRESS_SKIP) a
       end.
Proof.
  intros Hret.
  destruct (valid_page_facts s buf Hs Hv)
    as (Ha & HS & HSA & HAS & HA & Hm & WA & WS & WP).
  destruct (write_paths s scr buf Hs Hv)
    as [H|[H|(c & tmp & out & Hc & Hne & Htmp & Hout & Hlen & Hlt & H)]];
    rewrite H in *; clear H.
  - unfold write_uncompressed in *.
    destruct (write_tail_success _ _ _ _ _ Hret) as (addr & Hout & Hdsk & _).
    exists addr, A. rewrite Hout, Hdsk.
    repeat split; auto using WT_ALIGN_mod. lia.
  - discriminate.
  - destruct (write_tail_success _ _ _ _ _ Hret) as (addr & Ho & Hdsk & _).
    eexists addr, _. rewrite Ho, Hdsk.
    pose proof (WT_ALIGN_ge (Z.of_nat (length out) + COMPRESS_SKIP) a Ha).
    repeat split; auto using WT_ALIGN_mod.
    + unfold COMPRESS_SKIP in *. lia.
    + exists c, out. auto.
Qed.

(** C4: in the header of every block a successful write persists,
    [size <= memsize], and the two are equal exactly when the block is the
    caller's own page image (the uncompressed form); an adopted compressed
    block has a [size] that is a multiple of the allocation unit strictly
    below the aligned [memsize]. *)
Theorem write_size_memsize_invariant :
  scratch_sized ->
  w_ret (__wt_disk_write s scr buf) = None ->
  exists image,
    w_block (__wt_disk_write s scr buf) = Some image
    /\ get F_size image <= get F_memsize image
    /\ (get F_size image = get F_memsize image
        <-> w_dsk (__wt_disk_write s scr buf) = DskBuf)
    /\ (w_dsk (__wt_disk_write s scr buf) = DskBuf <-> image = uncompressed_block s buf)
    /\ (w_dsk (__wt_disk_write s scr buf) = DskTmp ->
        get F_size image mod a = 0
        /\ get F_size image < WT_ALIGN (get F_memsize image) a).
Proof.
  intros Hscr Hret.
  destruct (valid_page_facts s buf Hs Hv)
    as (Ha & HS & HSA & HAS & HA & Hm & WA & WS & WP).
  destruct (write_paths s scr buf Hs Hv)
    as [H|[H|(c & tmp & out & Hc & Hne & Htmp & Hout & Hlen & Hlt & H)]];
    rewrite H in *; clear H.
  - destruct (uncompressed_image s buf Hs Hv Hret)
      as (addr & image & Ho & Hd & Hb & Hi & G1 & G2 & _).
    exists image. rewrite Hb, Hd, G1, G2.
    repeat split; auto; try lia; discriminate.
  - discriminate.
  - destruct (compressed_image tmp out Hscr Htmp Hlen Hret)
      as (addr & image & Ho & Hd & Hb & Hi & G1 & G2 & _).
    exists image. rewrite Hb, Hd, G1, G2.
    pose proof (WT_ALIGN_gap _ _ _ Ha Hlt) as Hgap.
    repeat split; auto using WT_ALIGN_mod; try lia; try discriminate.
    intros Hu. exfalso.
    assert (Hsz : get F_size image = get F_size (uncompressed_block s buf))
      by now rewrite Hu.
    rewrite G1 in Hsz.
    unfold uncompressed_block in Hsz. cbv zeta in Hsz.
    destruct (not_compressed_header (set_sizes buf) A) as (N1 & _ & N3);
      [rewrite length_set_sizes; lia | cbn [set_sizes size]; lia |].
    destruct (image_header (mem (not_compressed (set_sizes buf) A))
                (lsn (btree s)) A) as (I1 & _).
    { unfold not_compressed. cbn [mem]. change (size (set_sizes buf)) with S.
      list_len. rewrite length_set_sizes by lia. lia. }
    { lia. }
    rewrite I1, N1, WA in Hsz. lia.
Qed.

(** C3: when a compressor is configured and its [compress] call returned
    [out], a successful write stores the block compressed (header
    [size <> memsize]) exactly when the aligned size of header plus
    compressed bytes is below the aligned size of the page; otherwise the
    caller's zero-padded page image is what is persisted. *)
Theorem compression_adoption_rule c tmp out :
  scratch_sized ->
  compressor (btree s) = Some c -> A <> a ->
  __wt_scr_alloc scr S = Some tmp ->
  compress c (payload buf) (S - COMPRESS_SKIP) = Some out ->
  w_ret (__wt_disk_write s scr buf) = None ->
  exists image,
    w_block (__wt_disk_write s scr buf) = Some image
    /\ (get F_size image <> get F_memsize image
        <-> WT_ALIGN (Z.of_nat (length out) + COMPRESS_SKIP) a < WT_ALIGN S a)
    /\ (WT_ALIGN (Z.of_nat (length out) + COMPRESS_SKIP) a < WT_ALIGN S a ->
        w_dsk (__wt_disk_write s scr buf) = DskTmp
        /\ image = compressed_block s buf tmp out)
    /\ (~ WT_ALIGN (Z.of_nat (length out) + COMPRESS_SKIP) a < WT_ALIGN S a ->
        w_dsk (__wt_disk_write s scr buf) = DskBuf
        /\ image = uncompressed_block s buf).
Proof.
  intros Hscr Hc Hne Htmp Hout.
  destruct (valid_page_facts s buf Hs Hv)
    as (Ha & HS & HSA & HAS & HA & Hm & WA & WS & WP).
  destruct (write_attempt s scr buf Hs Hv c tmp out Hc Hne Htmp Hout) as [Hlen Hw].
  cbv zeta in Hw. rewrite Hw. clear Hw.
  destruct (Z.ltb_spec (WT_ALIGN (Z.of_nat (length out) + COMPRESS_SKIP) a) A)
    as [Hlt|Hge]; intros Hret.
  - destruct (compressed_image tmp out Hscr Htmp Hlen Hret)
      as (addr & image & Ho & Hd & Hb & Hi & G1 & G2 & _).
    exists image. rewrite Hb, G1, G2.
    pose proof (WT_ALIGN_gap _ _ _ Ha Hlt) as Hgap.
    repeat split; auto; try lia.
  - destruct (uncompressed_image s buf Hs Hv Hret)
      as (addr & image & Ho & Hd & Hb & Hi & G1 & G2 & _).
    exists image. rewrite Hb, G1, G2.
    repeat split; auto; try lia.
Qed.

Lemma write_tail_outcomes se b d ch n :
  let r := write_tail se b d ch n in
  w_ret r = None
  \/ (w_ret r = Some AllocationFailed
      /\ __wt_block_alloc (block (btree se)) n = None)
  \/ (w_ret r = Some IOFailure
      /\ exists addr blk,
           __wt_block_alloc (block (btree se)) n = Some (addr, blk)
           /\ __wt_write (fh (btree se)) (WT_ADDR_TO_OFF (btree se) addr) n
                (firstn (Z.to_nat n) (stamp (mem ch) (WT_LSN_INCR (lsn (btree se))) n))
              = None).
Proof.
  unfold write_tail.
  destruct (__wt_block_alloc _ _) as [[addr blk]|] eqn:Ha; [|right; left; auto].
  destruct (__wt_write _ _ _ _) as [fh'|] eqn:Hw; [left; reflexivity|].
  right; right. split; [reflexivity|]. exists addr, blk. auto.
Qed.

(** C7: a failing [compress] call is not an error of the write: the write
    continues on the uncompressed path with the caller's buffer, can only
    fail where the block allocator or the file write fails, and when it
    succeeds the persisted header has [size = memsize = align_size] and the
    bytes from the page length up to [align_size] are zero. *)
Theorem compression_failure_falls_back c tmp :
  compressor (btree s) = Some c -> A <> a ->
  __wt_scr_alloc scr S = Some tmp ->
  compress c (payload buf) (S - COMPRESS_SKIP) = None ->
  let r := __wt_disk_write s scr buf in
  r = write_uncompressed s (set_sizes buf) A
  /\ w_dsk r = DskBuf
  /\ (w_ret r = None
      \/ (w_ret r = Some AllocationFailed
          /\ __wt_block_alloc (block (btree s)) A = None)
      \/ (w_ret r = Some IOFailure
          /\ exists addr blk,
               __wt_block_alloc (block (btree s)) A = Some (addr, blk)
               /\ __wt_write (fh (btree s)) (WT_ADDR_TO_OFF (btree s) addr) A
                    (uncompressed_block s buf) = None))
  /\ (w_ret r = None ->
      exists addr,
        w_out r = Some (addr, A)
        /\ w_block r = Some (uncompressed_block s buf)
        /\ get F_size (uncompressed_block s buf) = A
        /\ get F_memsize (uncompressed_block s buf) = A
        /\ skipn (Z.to_nat S) (uncompressed_block s buf)
           = repeat 0 (Z.to_nat (A - S))).
Proof.
  intros Hc Hne Htmp Hfail r.
  destruct (valid_page_facts s buf Hs Hv)
    as (Ha & HS & HSA & HAS & HA & Hm & WA & WS & WP).
  assert (Hr : r = write_uncompressed s (set_sizes buf) A).
  { unfold r, __wt_disk_write. rewrite Hc.
    change (size (set_sizes buf)) with S. rewrite WA, WP.
    destruct (Z.eqb_spec A a); [contradiction|].
    rewrite Htmp, payload_set_sizes by lia.
    change (S - 32) with (S - COMPRESS_SKIP). now rewrite Hfail. }
  split; [exact Hr|]. rewrite Hr.
  split; [apply write_tail_dsk|].
  split; [apply write_tail_outcomes|].
  intros Hret.
  destruct (uncompressed_image s buf Hs Hv Hret)
    as (addr & image & Ho & Hd & Hb & Hi & G1 & G2 & _ & _ & G3).
  subst image. exists addr. auto.
Qed.



End WriteClaims.

(** ** Runs of writes *)

Section WriteRuns.
Context {E : WT_ENV}.

Lemma write_tail_session se b d ch n :
  let r := write_tail se b d ch n in
  allocsize (btree (w_session r)) = allocsize (btree se)
  /\ compressor (btree (w_session r)) = compressor (btree se)
  /\ (lsn (btree (w_session r)) = lsn (btree se)
      \/ lsn (btree (w_session r)) = WT_LSN_INCR (lsn (btree se)))
  /\ (w_ret r = None -> lsn (btree (w_session r)) = WT_LSN_INCR (lsn (btree se))).
Proof.
  unfold write_tail.
  destruct (__wt_block_alloc _ _) as [[addr blk]|]; [|cbn; intuition discriminate].
  destruct (__wt_write _ _ _ _); cbn; auto.
Qed.

(** One write: the configuration of the btree is kept, the counter moves
    by at most one step, and a persisted block carries the new value. *)
Lemma write_session_step s scr buf :
  session_ok s -> valid_page (allocsize (btree s)) buf -> scratch_sized ->
  let r := __wt_disk_write s scr buf in
  allocsize (btree (w_session r)) = allocsize (btree s)
  /\ compressor (btree (w_session r)) = compressor (btree s)
  /\ (lsn (btree (w_session r)) = lsn (btree s)
      \/ lsn (btree (w_session r)) = WT_LSN_INCR (lsn (btree s)))
  /\ (w_ret r = None ->
      exists image,
        w_block r = Some image
        /\ get F_lsn image = WT_LSN_INCR (lsn (btree s))
        /\ lsn (btree (w_session r)) = WT_LSN_INCR (lsn (btree s))).
Proof.
  intros Hs Hv Hscr r. unfold r.
  destruct (write_paths s scr buf Hs Hv)
    as [H|[H|(c & tmp & out & Hc & Hne & Htmp & Hout & Hlen & Hlt & H)]];
    rewrite H; clear H.
  - unfold write_uncompressed.
    destruct (write_tail_session s (not_compressed (set_sizes buf)
                (WT_ALIGN (size buf) (allocsize (btree s)))) DskBuf
                (not_compressed (set_sizes buf)
                   (WT_ALIGN (size buf) (allocsize (btree s))))
                (WT_ALIGN (size buf) (allocsize (btree s))))
      as (T1 & T2 & T3 & T4).
    repeat split; auto. intros Hret.
    destruct (uncompressed_image s buf Hs Hv Hret)
      as (addr & image & Ho & Hd & Hb & Hi & G1 & G2 & G3 & _).
    exists image. auto.
  - cbn. intuition discriminate.
  - destruct (write_tail_session s (set_sizes buf) DskTmp
                (compressed (set_sizes buf) tmp out
                   (WT_ALIGN (Z.of_nat (length out) + COMPRESS_SKIP)
                      (allocsize (btree s))))
                (WT_ALIGN (Z.of_nat (length out) + COMPRESS_SKIP)
                   (allocsize (btree s))))
      as (T1 & T2 & T3 & T4).
    repeat split; auto. intros Hret.
    destruct (compressed_image s scr buf Hs Hv tmp out Hscr Htmp Hlen Hret)
      as (addr & image & Ho & Hd & Hb & Hi & G1 & G2 & G3).
    exists image. auto.
Qed.

Lemma WT_LSN_INCR_small l : 0 <= l -> l + 1 < 2 ^ 64 -> WT_LSN_INCR l = l + 1.
Proof. intros. unfold WT_LSN_INCR, wrap64. apply Z.mod_small. lia. Qed.

(** C6: over any run of writes on one btree instance, the LSNs found in
    the headers of the persisted blocks are strictly increasing: each is
    greater than every one persisted before it, and all are greater than
    the counter the run started from (as long as the 64-bit counter does
    not wrap within the run). *)
Theorem lsn_strictly_increasing s reqs :
  scratch_sized ->
  session_ok s ->
  Forall (fun q => valid_page (allocsize (btree s)) (snd q)) reqs ->
  0 <= lsn (btree s) ->
  lsn (btree s) + Z.of_nat (length reqs) < 2 ^ 64 ->
  StronglySorted Z.lt (persisted_lsns (write_all s reqs))
  /\ Forall (fun l => lsn (btree s) < l) (persisted_lsns (write_all s reqs)).
Proof.
  intros Hscr. revert s.
  induction reqs as [|[scr b] rest IH]; intros s Hs Hv H0 Hmax.
  - cbn. split; constructor.
  - inversion Hv as [|? ? Hb Hrest]; subst. cbn [snd] in Hb.
    cbn [write_all persisted_lsns].
    destruct (write_session_step s scr b Hs Hb Hscr) as (Ha & Hc & Hl & Hok).
    cbv zeta in Ha, Hc, Hl, Hok.
    set (r := __wt_disk_write s scr b) in *.
    cbn [length] in Hmax. rewrite Nat2Z.inj_succ in Hmax.
    assert (Hincr : WT_LSN_INCR (lsn (btree s)) = lsn (btree s) + 1)
      by (apply WT_LSN_INCR_small; lia).
    rewrite Hincr in *.
    assert (Hs' : session_ok (w_session r)).
    { destruct Hs as [P Q]. split; [now rewrite Ha|]. intros c. rewrite Hc. apply Q. }
    destruct (IH (w_session r) Hs') as [St F];
      [now rewrite Ha | lia | lia |].
    assert (F' : Forall (fun l => lsn (btree s) < l)
                   (persisted_lsns (write_all (w_session r) rest))).
    { eapply Forall_impl; [|exact F]. cbn beta. intros; lia. }
    destruct (w_ret r) as [e|] eqn:Hret.
    + split; assumption.
    + destruct (Hok eq_refl) as (image & Hblk & Hg & Hl').
      rewrite Hblk, Hg. split.
      * constructor; [exact St|]. now rewrite <- Hl'.
      * constructor; [lia|exact F'].
Qed.

End WriteRuns.

(** ** Writing, then reading *)

Section RoundTrip.
Context {E : WT_ENV}.

Lemma firstn_set f m v k :
  (f_off f + f_len f <= k)%nat -> (k <= length m)%nat ->
  firstn k (set f m v) = set f (firstn k m) v.
Proof.
  intros Hf Hk.
  rewrite <- (firstn_skipn k m) at 1.
  rewrite set_app_l by (rewrite length_firstn; lia).
  rewrite firstn_app.
  rewrite length_set by (rewrite length_firstn; lia).
  rewrite length_firstn.
  replace (k - Nat.min k (length m))%nat with 0%nat by lia.
  cbn [firstn]. rewrite app_nil_r.
  apply firstn_all2. rewrite length_set by (rewrite length_firstn; lia).
  rewrite length_firstn. lia.
Qed.

(** A region with its checksum field zeroed, cut after [n >= 32] bytes:
    the 32-byte header with the field zeroed, then the bytes that follow. *)
Lemma split_header X n :
  (32 <= length X)%nat -> (32 <= n)%nat ->
  firstn n (set F_checksum X 0)
  = set F_checksum (firstn 32 X) 0 ++ firstn (n - 32) (skipn 32 X).
Proof.
  intros HX Hn.
  rewrite <- (firstn_skipn 32 X) at 1.
  rewrite set_app_l by (rewrite length_firstn; cbn [f_off f_len F_checksum]; lia).
  rewrite firstn_app.
  rewrite length_set by (rewrite length_firstn; cbn [f_off f_len F_checksum]; lia).
  rewrite length_firstn.
  replace (Nat.min 32 (length X)) with 32%nat by lia.
  rewrite firstn_all2; [reflexivity|].
  rewrite length_set by (rewrite length_firstn; cbn [f_off f_len F_checksum]; lia).
  rewrite length_firstn. lia.
Qed.

(** What the reader finds in its buffer after reading back the first [n]
    bytes of a stamped region: the stored checksum is the recomputed one. *)
Lemma stamp_verifies M l n rmem :
  (32 <= length M)%nat -> (32 <= n <= length M)%nat -> (n <= length rmem)%nat ->
  let image := firstn n (stamp M l (Z.of_nat n)) in
  let m1 := store rmem 0 image in
  let m2 := set F_checksum m1 0 in
  get F_checksum m1 = wrap32 (__wt_cksum (firstn n m2))
  /\ m2 = set F_checksum image 0 ++ skipn n rmem
  /\ length image = n
  /\ get F_size m2 = get F_size M
  /\ get F_memsize m2 = get F_memsize M.
Proof.
  intros HM Hn Hr image m1 m2.
  assert (Hli : length image = n).
  { unfold image. rewrite length_firstn, length_stamp by lia. lia. }
  assert (Hm1 : m1 = image ++ skipn n rmem).
  { unfold m1. rewrite store_0. now rewrite Hli. }
  assert (Hm2 : m2 = set F_checksum image 0 ++ skipn n rmem).
  { unfold m2. rewrite Hm1. apply set_app_l. cbn [f_off f_len F_checksum]. lia. }
  set (d2 := set F_checksum (set F_lsn M l) 0).
  assert (Hd2 : length d2 = length M) by (unfold d2; list_len).
  assert (Himg : image
                 = set F_checksum (firstn n d2)
                     (wrap32 (__wt_cksum (firstn (Z.to_nat (Z.of_nat n)) d2)))).
  { unfold image, stamp. fold d2.
    apply firstn_set; cbn [f_off f_len F_checksum]; lia. }
  assert (Hz : set F_checksum image 0 = firstn n d2).
  { rewrite Himg. rewrite set_set by (rewrite length_firstn; cbn [f_off f_len F_checksum]; lia).
    unfold d2. rewrite <- firstn_set by (cbn [f_off f_len F_checksum]; list_len).
    rewrite set_set by (list_len). reflexivity. }
  repeat split; auto.
  - rewrite Hm1, get_app_l by (cbn [f_off f_len F_checksum]; lia).
    rewrite Himg at 1. rewrite get_set by (rewrite length_firstn; cbn [f_off f_len F_checksum]; lia).
    rewrite Hm2, firstn_app.
    rewrite length_set by (cbn [f_off f_len F_checksum]; lia).
    rewrite Hli, Nat.sub_diag. cbn [firstn]. rewrite app_nil_r.
    rewrite (firstn_all2 (n := n) (set F_checksum image 0))
      by (rewrite length_set; cbn [f_off f_len F_checksum]; lia).
    rewrite Hz, Nat2Z.id. cbn [f_len F_checksum].
    change (256 ^ Z.of_nat 4) with (2 ^ 32).
    unfold wrap32. now rewrite Z.mod_mod by lia.
  - rewrite Hm2, get_app_l
      by (rewrite length_set; cbn [f_off f_len F_checksum F_size]; lia).
    rewrite Hz. rewrite get_firstn by (cbn [f_off f_len F_size]; lia).
    unfold d2. rewrite !get_set_other; auto using disjoint_size_checksum,
      disjoint_size_lsn; list_len.
  - rewrite Hm2, get_app_l
      by (rewrite length_set; cbn [f_off f_len F_checksum F_memsize]; lia).
    rewrite Hz. rewrite get_firstn by (cbn [f_off f_len F_memsize]; lia).
    unfold d2. rewrite !get_set_other; auto using disjoint_memsize_checksum,
      disjoint_memsize_lsn; list_len.
Qed.

Section Layout.
Variables (s : WT_SESSION_IMPL) (scr : WT_SCR) (buf : WT_BUF).
Local Abbreviation a := (allocsize (btree s)).
Local Abbreviation S := (size buf).
Local Abbreviation A := (WT_ALIGN (size buf) (allocsize (btree s))).

Hypothesis Hs : session_ok s.
Hypothesis Hv : valid_page (allocsize (btree s)) buf.

Lemma length_payload : Z.of_nat (length (payload buf)) = S - 32.
Proof.
  destruct (valid_page_facts s buf Hs Hv)
    as (Ha & HS & HSA & HAS & HA & Hm & WA & WS & WP).
  unfold payload. rewrite WP. change (Z.to_nat COMPRESS_SKIP) with 32%nat.
  list_len.
Qed.

Lemma length_not_compressed :
  length (mem (not_compressed (set_sizes buf) A)) = length (mem buf).
Proof.
  destruct (valid_page_facts s buf Hs Hv)
    as (Ha & HS & HSA & HAS & HA & Hm & WA & WS & WP).
  unfold not_compressed. cbn [mem]. change (size (set_sizes buf)) with S.
  list_len. rewrite length_set_sizes by lia.
  rewrite (wrap32_small (A - S)) by lia. lia.
Qed.

(** The uncompressed block: behind the header, the caller's payload. *)
Lemma uncompressed_layout :
  firstn (Z.to_nat (S - 32)) (skipn 32 (uncompressed_block s buf)) = payload buf.
Proof.
  destruct (valid_page_facts s buf Hs Hv)
    as (Ha & HS & HSA & HAS & HA & Hm & WA & WS & WP).
  pose proof length_not_compressed as HL.
  unfold uncompressed_block. cbv zeta.
  rewrite skipn_firstn_comm, firstn_firstn.
  replace (Nat.min (Z.to_nat (S - 32)) (Z.to_nat A - 32)) with (Z.to_nat (S - 32))
    by lia.
  rewrite skipn_stamp by lia.
  unfold not_compressed. cbn [mem]. change (size (set_sizes buf)) with S.
  unfold set.
  rewrite !skipn_store_ge by (list_len; rewrite ?length_set_sizes by lia; lia).
  unfold memset. rewrite firstn_skipn_comm.
  rewrite firstn_store_lt by (rewrite ?length_set_sizes; lia).
  rewrite <- firstn_skipn_comm, skipn_set_sizes by lia.
  unfold payload. rewrite WP. reflexivity.
Qed.

(** The compressed block: behind the header, the compressor's output,
    then zeros up to the aligned size. *)
Lemma compressed_layout tmp out :
  scratch_sized -> __wt_scr_alloc scr S = Some tmp ->
  Z.of_nat (length out) + 32 <= S ->
  let cs := WT_ALIGN (Z.of_nat (length out) + COMPRESS_SKIP) a in
  cs < A ->
  skipn 32 (compressed_block s buf tmp out)
  = out ++ repeat 0 (Z.to_nat (cs - (Z.of_nat (length out) + 32)))
  /\ (Z.to_nat cs <= length (mem (compressed (set_sizes buf) tmp out cs)))%nat.
Proof.
  intros Hscr Htmp Hlen cs Hlt.
  destruct (valid_page_facts s buf Hs Hv)
    as (Ha & HS & HSA & HAS & HA & Hm & WA & WS & WP).
  destruct (Hscr _ _ _ Htmp) as [_ Hcap].
  pose proof (WT_ALIGN_ge (Z.of_nat (length out) + COMPRESS_SKIP) a Ha) as Hge.
  pose proof (WT_ALIGN_gap _ _ _ Ha Hlt) as Hgap.
  fold cs in Hge, Hgap. unfold COMPRESS_SKIP in Hge.
  unfold compressed_block. cbv zeta. fold cs.
  unfold compressed. cbn [mem].
  rewrite (wrap32_small (Z.of_nat (length out) + COMPRESS_SKIP))
    by (unfold COMPRESS_SKIP; lia).
  rewrite (wrap32_small (cs - _)) by (unfold COMPRESS_SKIP; lia).
  change (Z.to_nat COMPRESS_SKIP) with 32%nat.
  replace (Z.to_nat (Z.of_nat (length out) + COMPRESS_SKIP))
    with (32 + length out)%nat by (unfold COMPRESS_SKIP; lia).
  replace (Z.to_nat (cs - (Z.of_nat (length out) + COMPRESS_SKIP)))
    with (Z.to_nat (cs - (Z.of_nat (length out) + 32)))
    by (unfold COMPRESS_SKIP; lia).
  set (k := Z.to_nat (cs - (Z.of_nat (length out) + 32))).
  set (t1 := store (mem tmp) 32 out).
  set (t2 := memcpy t1 (mem (set_sizes buf)) 32).
  set (t3 := memset t2 (32 + length out) 0 k).
  assert (Hb : length (mem (set_sizes buf)) = length (mem buf))
    by (apply length_set_sizes; lia).
  assert (L1 : length t1 = length (mem tmp)) by (unfold t1; list_len).
  assert (L2 : length t2 = length (mem tmp)) by (unfold t2; list_len).
  assert (L3 : length t3 = length (mem tmp)) by (unfold t3, k; list_len).
  assert (K1 : skipn 32 t1 = out ++ skipn (32 + length out) (mem tmp)).
  { unfold t1, store. rewrite skipn_app, length_firstn.
    rewrite skipn_all2 by (rewrite length_firstn; lia).
    replace (32 - Nat.min 32 (length (mem tmp)))%nat with 0%nat by lia.
    reflexivity. }
  assert (K2 : skipn 32 t2 = skipn 32 t1).
  { unfold t2, memcpy. apply skipn_store_ge; list_len. }
  assert (K3 : skipn 32 t3 = out ++ repeat 0 k ++ skipn (32 + length out + k) t2).
  { unfold t3, memset, store. rewrite skipn_app, length_firstn.
    replace (32 - Nat.min (32 + length out) (length t2))%nat with 0%nat by lia.
    rewrite skipn_firstn_comm, K2, K1.
    replace (32 + length out - 32)%nat with (length out) by lia.
    rewrite firstn_app, firstn_all, Nat.sub_diag. cbn [firstn skipn].
    rewrite app_nil_r, repeat_length. reflexivity. }
  split.
  - rewrite skipn_firstn_comm, skipn_stamp by list_len.
    unfold set. rewrite skipn_store_ge by list_len.
    rewrite K3, app_assoc, firstn_app.
    rewrite firstn_all2 by (unfold k; list_len).
    replace (Z.to_nat cs - 32 - length (out ++ repeat 0%Z k))%nat with 0%nat
      by (unfold k; list_len).
    cbn [firstn]. now rewrite app_nil_r.
  - unfold set. list_len.
Qed.

End Layout.

End RoundTrip.

Section RoundTripClaim.
Context {E : WT_ENV}.
Variables (s : WT_SESSION_IMPL) (scr rscr : WT_SCR) (buf rbuf : WT_BUF).
Local Abbreviation a := (allocsize (btree s)).
Local Abbreviation S := (size buf).
Local Abbreviation A := (WT_ALIGN (size buf) (allocsize (btree s))).

Hypothesis Hs : session_ok s.
Hypothesis Hv : valid_page (allocsize (btree s)) buf.

(** The reader's steps up to the size test, on a block that was stamped
    by the writer. *)
Lemma read_stamped se addr n M l :
  (32 <= length M)%nat -> (32 <= Z.to_nat n <= length M)%nat -> 0 <= n ->
  (Z.to_nat n <= length (mem rbuf))%nat ->
  let image := firstn (Z.to_nat n) (stamp M l n) in
  __wt_read (fh (btree se)) (WT_ADDR_TO_OFF (btree se) addr) n = Some image ->
  let m2 := set F_checksum image 0 ++ skipn (Z.to_nat n) (mem rbuf) in
  length image = Z.to_nat n
  /\ get F_size m2 = get F_size M /\ get F_memsize m2 = get F_memsize M
  /\ __wt_disk_read se rscr rbuf addr n
     = let buf2 := mkBuf m2 (size rbuf) in
       let session1 := stat_read se in
       if get F_size m2 =? get F_memsize m2 then (None, buf2, session1)
       else
         match __wt_scr_alloc rscr (get F_memsize m2) with
         | None => (Some ScratchAllocFailed, buf2, session1)
         | Some tmp =>
           let t1 := memcpy (mem tmp) m2 (Z.to_nat COMPRESS_SKIP) in
           match compressor (btree se) with
           | None => (Some NoCompressor, buf2, session1)
           | Some c =>
             match decompress c (payload buf2) (wrap32 (size tmp - COMPRESS_SKIP)) with
             | None => (Some DecompressionFailed, buf2, session1)
             | Some out =>
               (None, mkBuf (store t1 (Z.to_nat COMPRESS_SKIP) out) (size tmp), session1)
             end
           end
         end.
Proof.
  intros HM Hn H0 Hr image Hrd m2.
  pose proof (stamp_verifies M l (Z.to_nat n) (mem rbuf) HM Hn Hr) as V.
  rewrite Z2Nat.id in V by lia. cbv zeta in V. fold image in V.
  destruct V as (V1 & V2 & V3 & V4 & V5).
  fold m2 in V2. rewrite V2 in V1, V4, V5.
  repeat split; auto.
  unfold __wt_disk_read. rewrite Hrd. rewrite V2.
  rewrite <- V1. rewrite store_0, V3.
  replace (get F_checksum (image ++ skipn (Z.to_nat n) (mem rbuf)))
    with (get F_checksum (store (mem rbuf) 0 image))
    by (rewrite store_0, V3; reflexivity).
  rewrite Z.eqb_refl. reflexivity.
Qed.

(** C1, as the code has it: after a successful write, reading the
    returned (addr, size) back succeeds, provided the scratch pool the
    read finds can serve the page length when the block is compressed,
    and gives a buffer whose first [S] bytes are the header as it was
    persisted, with its checksum field zero, followed by the payload of
    the page image that was written; this holds for the uncompressed and
    for the compressed form.  [scr] is the pool at the write, [rscr] the
    pool at the read. *)
Theorem write_read_roundtrip addr sz image :
  scratch_sized ->
  (forall c, compressor (btree s) = Some c -> decompress_inverts c) ->
  w_ret (__wt_disk_write s scr buf) = None ->
  w_out (__wt_disk_write s scr buf) = Some (addr, sz) ->
  w_block (__wt_disk_write s scr buf) = Some image ->
  __wt_read (fh (btree (w_session (__wt_disk_write s scr buf))))
            (WT_ADDR_TO_OFF (btree (w_session (__wt_disk_write s scr buf))) addr) sz
  = Some image ->
  size rbuf = sz -> sz <= Z.of_nat (length (mem rbuf)) ->
  (w_dsk (__wt_disk_write s scr buf) = DskTmp -> __wt_scr_alloc rscr S <> None) ->
  let rd := __wt_disk_read (w_session (__wt_disk_write s scr buf)) rscr rbuf addr sz in
  read_ret rd = None
  /\ firstn (Z.to_nat S) (mem (read_buf rd))
     = set F_checksum (firstn 32 image) 0 ++ payload buf.
Proof.
  intros Hscr Hinv Hret Hout Hblk Hrd Hrs Hrc Hready rd.
  destruct (valid_page_facts s buf Hs Hv)
    as (Ha & HS & HSA & HAS & HA & Hm & WA & WS & WP).
  pose proof (write_session_step s scr buf Hs Hv Hscr) as (_ & Hcomp & _).
  cbv zeta in Hcomp.
  destruct (write_paths s scr buf Hs Hv)
    as [H|[H|(c & tmp & out & Hc & Hne & Htmp & Hco & Hlen & Hlt & H)]].
  - (* the uncompressed form *)
    rewrite H in Hret.
    destruct (uncompressed_image s buf Hs Hv Hret)
      as (addr' & image' & Ho & Hd & Hb & Hi & G1 & G2 & _ & Gl & _).
    rewrite <- H in Ho, Hb. rewrite Ho in Hout. rewrite Hb in Hblk.
    injection Hout as -> <-. injection Hblk as <-. subst image'.
    pose proof (length_not_compressed s buf Hs Hv) as HL.
    destruct (not_compressed_header (set_sizes buf) A) as (N1 & N2 & _);
      [rewrite length_set_sizes; lia | cbn [set_sizes size]; lia |].
    destruct (read_stamped (w_session (__wt_disk_write s scr buf)) addr A
                (mem (not_compressed (set_sizes buf) A))
                (WT_LSN_INCR (lsn (btree s))))
      as (R1 & R2 & R3 & R4); try lia.
    { exact Hrd. }
    change (firstn (Z.to_nat A)
              (stamp (mem (not_compressed (set_sizes buf) A))
                 (WT_LSN_INCR (lsn (btree s))) A))
      with (uncompressed_block s buf) in R1, R2, R3, R4.
    unfold rd. rewrite R4. cbv zeta.
    rewrite R2, R3, N1, N2, Z.eqb_refl.
    cbn [read_ret read_buf fst snd mem]. split; [reflexivity|].
    rewrite firstn_app.
    rewrite length_set by (cbn [f_off f_len F_checksum]; lia).
    replace (Z.to_nat S - length (uncompressed_block s buf))%nat with 0%nat by lia.
    cbn [firstn]. rewrite app_nil_r.
    rewrite split_header by lia.
    replace (Z.to_nat S - 32)%nat with (Z.to_nat (S - 32)) by lia.
    now rewrite (uncompressed_layout s buf Hs Hv).
  - rewrite H in Hret. discriminate.
  - (* the compressed form *)
    assert (Hdsk : w_dsk (__wt_disk_write s scr buf) = DskTmp)
      by (rewrite H; apply write_tail_dsk).
    destruct (__wt_scr_alloc rscr S) as [rtmp|] eqn:Hrtmp;
      [|exact (False_ind _ (Hready Hdsk eq_refl))].
    destruct (Hscr _ _ _ Hrtmp) as [Hrts _].
    rewrite H in Hret.
    destruct (compressed_image s scr buf Hs Hv tmp out Hscr Htmp Hlen Hret)
      as (addr' & image' & Ho & Hd & Hb & Hi & G1 & G2 & _).
    rewrite <- H in Ho, Hb. rewrite Ho in Hout. rewrite Hb in Hblk.
    injection Hout as -> <-. injection Hblk as <-. subst image'.
    set (cs := WT_ALIGN (Z.of_nat (length out) + COMPRESS_SKIP) a) in *.
    destruct (compressed_layout s scr buf Hs Hv tmp out Hscr Htmp Hlen Hlt) as [Lay Lcap].
    fold cs in Lay, Lcap.
    pose proof (WT_ALIGN_ge (Z.of_nat (length out) + COMPRESS_SKIP) a Ha) as Hge.
    pose proof (WT_ALIGN_gap _ _ _ Ha Hlt) as Hgap.
    fold cs in Hge, Hgap. unfold COMPRESS_SKIP in Hge.
    destruct (Hscr _ _ _ Htmp) as [Hts Hcap].
    destruct (compressed_header (set_sizes buf) tmp out cs) as (Q1 & Q2 & Q3);
      [rewrite length_set_sizes; lia | lia | unfold COMPRESS_SKIP; lia |].
    destruct (get_size_set_sizes buf) as [_ Gm]; [lia|].
    destruct (read_stamped (w_session (__wt_disk_write s scr buf)) addr cs
                (mem (compressed (set_sizes buf) tmp out cs))
                (WT_LSN_INCR (lsn (btree s))))
      as (R1 & R2 & R3 & R4); try lia.
    { exact Hrd. }
    set (image := compressed_block s buf tmp out) in *.
    change (firstn (Z.to_nat cs)
              (stamp (mem (compressed (set_sizes buf) tmp out cs))
                 (WT_LSN_INCR (lsn (btree s))) cs))
      with image in R1, R2, R3, R4.
    unfold rd. rewrite R4. cbv zeta.
    rewrite R2, R3, Q1, Q2, Gm, WS, (wrap32_small cs) by lia.
    destruct (Z.eqb_spec cs S) as [He|_]; [lia|].
    rewrite Hrtmp, Hcomp, Hc, Hrts, WP.
    assert (Hsrc : payload
                     (mkBuf (set F_checksum image 0
                               ++ skipn (Z.to_nat cs) (mem rbuf)) (size rbuf))
                   = out ++ repeat 0 (Z.to_nat (cs - (Z.of_nat (length out) + 32)))).
    { unfold payload. cbn [mem size]. rewrite Hrs.
      rewrite (wrap32_small (cs - COMPRESS_SKIP)) by (unfold COMPRESS_SKIP; lia).
      change (Z.to_nat COMPRESS_SKIP) with 32%nat.
      rewrite skipn_app.
      rewrite length_set by (cbn [f_off f_len F_checksum]; lia).
      replace (32 - length image)%nat with 0%nat by lia.
      unfold set at 1. rewrite skipn_store_ge by list_len.
      rewrite Lay. cbn [skipn]. rewrite firstn_app.
      rewrite firstn_all2 by (list_len; unfold COMPRESS_SKIP; lia).
      match goal with |- _ ++ firstn ?k _ = _ => replace k with 0%nat end.
      - cbn [firstn]. apply app_nil_r.
      - list_len. unfold COMPRESS_SKIP. lia. }
    rewrite Hsrc.
    pose proof (length_payload s buf Hs Hv) as Lp.
    rewrite <- Lp.
    rewrite (Hinv c Hc (payload buf) (S - COMPRESS_SKIP) out _ Hco).
    cbn [read_ret read_buf fst snd mem]. split; [reflexivity|].
    change (Z.to_nat COMPRESS_SKIP) with 32%nat.
    unfold memcpy. rewrite store_0.
    rewrite firstn_app.
    rewrite length_set by (cbn [f_off f_len F_checksum]; lia).
    replace (32 - length image)%nat with 0%nat by lia.
    rewrite firstn_O, app_nil_r.
    rewrite (firstn_set F_checksum image 0 32)
      by (cbn [f_off f_len F_checksum]; lia).
    set (X := set F_checksum (firstn 32 image) 0).
    assert (LX : length X = 32%nat).
    { unfold X. rewrite length_set; rewrite length_firstn; cbn [f_off f_len F_checksum]; lia. }
    rewrite LX.
    rewrite store_app_r by lia. rewrite LX, Nat.sub_diag, store_0.
    rewrite firstn_app, LX, firstn_all2 by lia.
    f_equal. rewrite firstn_app.
    rewrite firstn_all2 by lia.
    replace (Z.to_nat S - 32 - length (payload buf))%nat with 0%nat by lia.
    cbn [firstn]. apply app_nil_r.
Qed.

End RoundTripClaim.

(** ** The model on concrete pages *)

Lemma toy_scratch_sized : scratch_sized.
Proof.
  intros scr n b H. cbn in H. unfold toy_scr_alloc in H.
  destruct scr; [|discriminate].
  injection H as <-. cbn [mem size]. rewrite repeat_length. lia.
Qed.

Lemma run_respects_capacity : respects_capacity run_compressor.
Proof.
  intros src cap out. cbn. unfold run_compress.
  destruct src as [|x t]; [discriminate|].
  destruct (forallb (Z.eqb x) (x :: t)); cbn [andb]; [|discriminate].
  destruct (Z.leb_spec 1 cap) as [Hcap|Hcap]; [|discriminate].
  intros Hout. injection Hout as <-. cbn. lia.
Qed.

Lemma forallb_eqb_repeat x l :
  forallb (Z.eqb x) l = true -> repeat x (length l) = l.
Proof.
  induction l as [|y t IH]; cbn; [reflexivity|].
  intros H. apply andb_true_iff in H as [Hx Ht].
  apply Z.eqb_eq in Hx. subst y. now rewrite IH.
Qed.

Lemma run_decompress_inverts : decompress_inverts run_compressor.
Proof.
  intros src cap out pad. cbn. unfold run_compress.
  destruct src as [|x t]; [discriminate|].
  destruct (forallb (Z.eqb x) (x :: t)) eqn:Hall; cbn [andb]; [|discriminate].
  destruct (1 <=? cap); [|discriminate].
  intros H. injection H as <-. cbn [app run_decompress].
  rewrite Nat2Z.id. now rewrite forallb_eqb_repeat.
Qed.

Lemma toy_session_ok f l : session_ok (toy_session_on f (Some run_compressor) l).
Proof.
  split; [cbn; lia|]. cbn. intros c H. injection H as <-.
  apply run_respects_capacity.
Qed.

Lemma failing_session_ok l : session_ok (toy_session (Some failing_compressor) l).
Proof.
  split; [cbn; lia|]. cbn. intros c H. injection H as <-.
  intros src cap out. cbn. discriminate.
Qed.

Lemma toy_page_valid b : valid_page 512 (toy_page b).
Proof.
  unfold valid_page, toy_page. cbn [mem size].
  rewrite !length_app, !repeat_length.
  change (WT_ALIGN 600 512) with 1024. unfold COMPRESS_SKIP, UINT32_MAX. lia.
Qed.

Lemma toy_page_mixed_valid : valid_page 512 toy_page_mixed.
Proof.
  unfold valid_page, toy_page_mixed. cbn [mem size].
  rewrite !length_app, !repeat_length.
  change (WT_ALIGN 600 512) with 1024. unfold COMPRESS_SKIP, UINT32_MAX.
  cbn [length]. lia.
Qed.

(** Example A of the specification: unit 512, page of 600 bytes. *)
Example example_A :
  let r := __wt_disk_write (toy_session None 7) true (toy_page 7) in
  w_ret r = None /\ w_out r = Some (0, 1024)
  /\ option_map (get F_size) (w_block r) = Some 1024
  /\ option_map (get F_memsize) (w_block r) = Some 1024
  /\ option_map (skipn 600) (w_block r) = Some (repeat 0 424).
Proof. vm_compute. repeat split. Qed.

(** Example B: the same page compresses to one byte behind the header. *)
Example example_B :
  let r := __wt_disk_write (toy_session (Some run_compressor) 7) true (toy_page 7) in
  w_ret r = None /\ w_out r = Some (0, 512)
  /\ option_map (get F_size) (w_block r) = Some 512
  /\ option_map (get F_memsize) (w_block r) = Some 600.
Proof. vm_compute. repeat split. Qed.

(** *** Reading a damaged block *)

Lemma read_checksum_mismatch_iff_witness :
  __wt_read (fh (btree toy_damaged_session))
    (WT_ADDR_TO_OFF (btree toy_damaged_session) 0) 512 = Some (repeat 1 512)
  /\ __wt_disk_read toy_damaged_session true (toy_rbuf 512) 0 512
     = (Some ChecksumMismatch,
        mkBuf (set F_checksum (store (mem (toy_rbuf 512)) 0 (repeat 1 512)) 0)
              (size (toy_rbuf 512)),
        toy_damaged_session).
Proof.
  assert (H : __wt_read (fh (btree toy_damaged_session))
                (WT_ADDR_TO_OFF (btree toy_damaged_session) 0) 512
              = Some (repeat 1 512)) by reflexivity.
  split; [exact H|].
  apply (read_checksum_mismatch_iff toy_damaged_session true (toy_rbuf 512) 0 512 _ H).
  vm_compute. discriminate.
Defined.

Lemma read_failure_buffer_witness :
  read_ret (__wt_disk_read toy_damaged_session true (toy_rbuf 512) 0 512)
  = Some ChecksumMismatch
  /\ exists data,
       __wt_read (fh (btree toy_damaged_session))
         (WT_ADDR_TO_OFF (btree toy_damaged_session) 0) 512 = Some data
       /\ read_buf (__wt_disk_read toy_damaged_session true (toy_rbuf 512) 0 512)
          = mkBuf (set F_checksum (store (mem (toy_rbuf 512)) 0 data) 0)
                  (size (toy_rbuf 512)).
Proof.
  assert (H : read_ret (__wt_disk_read toy_damaged_session true (toy_rbuf 512) 0 512)
              = Some ChecksumMismatch) by (vm_compute; reflexivity).
  split; [exact H|].
  apply (read_failure_buffer toy_damaged_session true (toy_rbuf 512) 0 512 _ H).
  left. reflexivity.
Defined.

(** C2 as it is stated fails: a read that ends in the checksum error, or
    in the decompressor, has already overwritten the caller's buffer. *)
Lemma read_failure_changes_buffer :
  (read_ret (__wt_disk_read toy_damaged_session true (toy_rbuf 512) 0 512)
   = Some ChecksumMismatch
   /\ read_buf (__wt_disk_read toy_damaged_session true (toy_rbuf 512) 0 512)
      <> toy_rbuf 512)
  /\ (let s := with_compressor
                 (w_session (__wt_disk_write (toy_session (Some run_compressor) 7) true
                               (toy_page 7)))
                 (Some failing_compressor) in
      read_ret (__wt_disk_read s true (toy_rbuf 512) 0 512) = Some DecompressionFailed
      /\ read_buf (__wt_disk_read s true (toy_rbuf 512) 0 512) <> toy_rbuf 512).
Proof.
  split; (split; [vm_compute; reflexivity|]);
    intros H; apply (f_equal (fun b => nth 4 (mem b) 0)) in H;
    vm_compute in H; discriminate H.
Qed.

(** *** Writing, then reading *)

Lemma read_success_checksum_zero_witness :
  let s := w_session (__wt_disk_write (toy_session (Some run_compressor) 7) true
                        (toy_page 7)) in
  read_ret (__wt_disk_read s true (toy_rbuf 512) 0 512) = None
  /\ firstn 4 (mem (read_buf (__wt_disk_read s true (toy_rbuf 512) 0 512)))
     = [0; 0; 0; 0]
  /\ get F_checksum (mem (read_buf (__wt_disk_read s true (toy_rbuf 512) 0 512))) = 0.
Proof.
  intros s.
  assert (H : read_ret (__wt_disk_read s true (toy_rbuf 512) 0 512) = None)
    by (vm_compute; reflexivity).
  split; [exact H|].
  exact (read_success_checksum_zero s true (toy_rbuf 512) 0 512 H).
Defined.

(** C1 as it is stated fails on the checksum field: the bytes read back
    are not the persisted ones. *)
Lemma roundtrip_checksum_field_differs :
  let s := toy_session None 7 in
  let r := __wt_disk_write s true (toy_page 7) in
  let rd := __wt_disk_read (w_session r) true (toy_rbuf 1024) 0 1024 in
  w_ret r = None /\ w_out r = Some (0, 1024)
  /\ w_block r = Some (uncompressed_block s (toy_page 7))
  /\ read_ret rd = None
  /\ firstn 600 (mem (read_buf rd)) <> firstn 600 (uncompressed_block s (toy_page 7)).
Proof.
  cbv zeta. repeat split; try (vm_compute; reflexivity).
  intros H. apply (f_equal (fun m => nth 0 m 0)) in H.
  vm_compute in H. discriminate H.
Qed.

(** The read allocates its scratch buffer on its own: with the pool
    exhausted at the time of the read, a compressed block that was
    written successfully cannot be read back. *)
Example read_fails_without_scratch :
  let r := __wt_disk_write (toy_session (Some run_compressor) 7) true (toy_page 7) in
  w_ret r = None
  /\ read_ret (__wt_disk_read (w_session r) false (toy_rbuf 512) 0 512)
     = Some ScratchAllocFailed.
Proof. vm_compute. split; reflexivity. Qed.

Lemma write_read_roundtrip_witness :
  let s := toy_session (Some run_compressor) 7 in
  let r := __wt_disk_write s true (toy_page 7) in
  let rd := __wt_disk_read (w_session r) true (toy_rbuf 512) 0 512 in
  session_ok s /\ valid_page 512 (toy_page 7)
  /\ w_ret r = None /\ w_out r = Some (0, 512)
  /\ w_block r = Some (compressed_block s (toy_page 7) (mkBuf (repeat 170 600) 600) [7])
  /\ read_ret rd = None
  /\ firstn 600 (mem (read_buf rd))
     = set F_checksum
         (firstn 32 (compressed_block s (toy_page 7) (mkBuf (repeat 170 600) 600) [7])) 0
       ++ payload (toy_page 7).
Proof.
  intros s r rd.
  assert (Hs : session_ok s) by apply toy_session_ok.
  assert (Hv : valid_page (allocsize (btree s)) (toy_page 7)) by apply toy_page_valid.
  assert (H1 : w_ret r = None) by (vm_compute; reflexivity).
  assert (H2 : w_out r = Some (0, 512)) by (vm_compute; reflexivity).
  assert (H3 : w_block r
               = Some (compressed_block s (toy_page 7) (mkBuf (repeat 170 600) 600) [7]))
    by (vm_compute; reflexivity).
  do 5 (split; [assumption|]).
  apply (write_read_roundtrip s true true (toy_page 7) (toy_rbuf 512) Hs Hv 0 512 _
           toy_scratch_sized).
  - intros c Hc. injection Hc as <-. apply run_decompress_inverts.
  - exact H1.
  - exact H2.
  - exact H3.
  - vm_compute. reflexivity.
  - reflexivity.
  - vm_compute. discriminate.
  - intros _. vm_compute. discriminate.
Defined.

(** *** Writing *)

Lemma compression_adoption_rule_witness :
  let s := toy_session (Some run_compressor) 7 in
  session_ok s /\ valid_page 512 (toy_page 7)
  /\ compress run_compressor (payload (toy_page 7)) (600 - COMPRESS_SKIP) = Some [7]
  /\ w_ret (__wt_disk_write s true (toy_page 7)) = None
  /\ exists image,
       w_block (__wt_disk_write s true (toy_page 7)) = Some image
       /\ (get F_size image <> get F_memsize image
           <-> WT_ALIGN (Z.of_nat (length [7]) + COMPRESS_SKIP) 512
               < WT_ALIGN 600 512).
Proof.
  intros s.
  assert (Hs : session_ok s) by apply toy_session_ok.
  assert (Hv : valid_page (allocsize (btree s)) (toy_page 7)) by apply toy_page_valid.
  assert (Hc : compress run_compressor (payload (toy_page 7)) (600 - COMPRESS_SKIP)
               = Some [7]) by (vm_compute; reflexivity).
  assert (Hr : w_ret (__wt_disk_write s true (toy_page 7)) = None)
    by (vm_compute; reflexivity).
  do 4 (split; [assumption|]).
  destruct (compression_adoption_rule s true (toy_page 7) Hs Hv run_compressor
              (mkBuf (repeat 170 600) 600) [7] toy_scratch_sized)
    as (image & Hb & Hiff & _); auto.
  - vm_compute. discriminate.
  - exists image. split; assumption.
Defined.

Lemma write_size_memsize_invariant_witness :
  let s := toy_session (Some run_compressor) 7 in
  session_ok s /\ valid_page 512 (toy_page 7)
  /\ w_ret (__wt_disk_write s true (toy_page 7)) = None
  /\ exists image,
       w_block (__wt_disk_write s true (toy_page 7)) = Some image
       /\ get F_size image <= get F_memsize image
       /\ (get F_size image = get F_memsize image
           <-> w_dsk (__wt_disk_write s true (toy_page 7)) = DskBuf).
Proof.
  intros s.
  assert (Hs : session_ok s) by apply toy_session_ok.
  assert (Hv : valid_page (allocsize (btree s)) (toy_page 7)) by apply toy_page_valid.
  assert (Hr : w_ret (__wt_disk_write s true (toy_page 7)) = None)
    by (vm_compute; reflexivity).
  do 3 (split; [assumption|]).
  destruct (write_size_memsize_invariant s true (toy_page 7) Hs Hv toy_scratch_sized Hr)
    as (image & Hb & Hle & Hiff & _).
  exists image. auto.
Defined.

Lemma write_size_aligned_witness :
  let s := toy_session (Some run_compressor) 7 in
  session_ok s /\ valid_page 512 toy_page_mixed
  /\ w_ret (__wt_disk_write s true toy_page_mixed) = None
  /\ exists addr sz,
       w_out (__wt_disk_write s true toy_page_mixed) = Some (addr, sz)
       /\ 0 < sz /\ sz mod 512 = 0.
Proof.
  intros s.
  assert (Hs : session_ok s) by apply toy_session_ok.
  assert (Hv : valid_page (allocsize (btree s)) toy_page_mixed)
    by apply toy_page_mixed_valid.
  assert (Hr : w_ret (__wt_disk_write s true toy_page_mixed) = None)
    by (vm_compute; reflexivity).
  do 3 (split; [assumption|]).
  destruct (write_size_aligned s true toy_page_mixed Hs Hv Hr)
    as (addr & sz & Ho & Hpos & Hmod & _).
  exists addr, sz. auto.
Defined.

Lemma compression_failure_falls_back_witness :
  let s := toy_session (Some failing_compressor) 7 in
  let r := __wt_disk_write s true (toy_page 7) in
  session_ok s /\ valid_page 512 (toy_page 7)
  /\ compress failing_compressor (payload (toy_page 7)) (600 - COMPRESS_SKIP) = None
  /\ r = write_uncompressed s (set_sizes (toy_page 7)) (WT_ALIGN 600 512)
  /\ w_dsk r = DskBuf.
Proof.
  intros s r.
  assert (Hs : session_ok s) by apply failing_session_ok.
  assert (Hv : valid_page (allocsize (btree s)) (toy_page 7)) by apply toy_page_valid.
  do 2 (split; [assumption|]). split; [reflexivity|].
  destruct (compression_failure_falls_back s true (toy_page 7) Hs Hv failing_compressor
              (mkBuf (repeat 170 600) 600))
    as (H1 & H2 & _); auto.
  vm_compute. discriminate.
Defined.


Lemma lsn_strictly_increasing_witness :
  let s := toy_session (Some run_compressor) 7 in
  let bufs := [(true, toy_page 7); (true, toy_page_mixed); (true, toy_page 3)] in
  session_ok s /\ Forall (fun q => valid_page 512 (snd q)) bufs
  /\ persisted_lsns (write_all s bufs) = [8; 9; 10]
  /\ StronglySorted Z.lt (persisted_lsns (write_all s bufs)).
Proof.
  intros s bufs.
  assert (Hs : session_ok s) by apply toy_session_ok.
  assert (Hv : Forall (fun q => valid_page (allocsize (btree s)) (snd q)) bufs).
  { apply Forall_cons; [apply toy_page_valid|].
    apply Forall_cons; [apply toy_page_mixed_valid|].
    apply Forall_cons; [apply toy_page_valid|apply Forall_nil]. }
  do 2 (split; [assumption|]). split; [vm_compute; reflexivity|].
  refine (proj1 (lsn_strictly_increasing s bufs toy_scratch_sized Hs Hv _ _)).
  - cbn. lia.
  - cbn. lia.
Defined.

(** * Further properties of the two functions *)

(** ** [__wt_disk_read]: what it touches and what it hands back *)

Section ReadMore.
Context {E : WT_ENV}.

(** X1: a read never changes the btree (file, counter, allocator,
    configuration) nor the write statistics; the two read statistics are
    bumped exactly when the checksum was verified, which includes reads
    that fail later in the scratch pool or in the decompressor. *)
Theorem read_frame s scr buf addr rsize :
  let rd := __wt_disk_read s scr buf addr rsize in
  btree (read_session rd) = btree s
  /\ page_write (stats (read_session rd)) = page_write (stats s)
  /\ block_write (stats (read_session rd)) = block_write (stats s)
  /\ (read_ret rd = Some IOFailure \/ read_ret rd = Some ChecksumMismatch ->
      read_session rd = s)
  /\ (read_ret rd <> Some IOFailure -> read_ret rd <> Some ChecksumMismatch ->
      read_session rd = stat_read s).
Proof.
  unfold __wt_disk_read.
  destruct (__wt_read _ _ _) as [data|];
    [|cbn; repeat split; auto; intros; congruence].
  destruct (negb _); [cbn; repeat split; auto; intros; congruence|].
  destruct (get F_size _ =? get F_memsize _);
    [cbn; repeat split; auto; intros [H|H]; discriminate H|].
  destruct (__wt_scr_alloc _ _) as [tmp|];
    [|cbn; repeat split; auto; intros [H|H]; discriminate H].
  destruct (compressor _) as [c|];
    [|cbn; repeat split; auto; intros [H|H]; discriminate H].
  destruct (decompress _ _ _) as [out|];
    cbn; repeat split; auto; intros [H|H]; discriminate H.
Qed.

(** X2: the buffer of a successful read, for a caller's buffer whose size
    field covers a header and lies within its memory.  For a block whose
    header sizes agree it is the caller's own buffer, size field
    untouched, holding the bytes read with the checksum field zeroed.
    Otherwise it is the scratch buffer: its size is the header's
    [memsize], and its memory starts with the 32 header bytes followed
    by what the decompressor produced from the [buf->size - 32] bytes
    behind the header of the caller's buffer. *)
Theorem read_success_buffer s scr buf addr rsize :
  scratch_sized ->
  COMPRESS_SKIP <= size buf ->
  size buf <= Z.of_nat (length (mem buf)) ->
  size buf <= UINT32_MAX ->
  read_ret (__wt_disk_read s scr buf addr rsize) = None ->
  exists data,
    __wt_read (fh (btree s)) (WT_ADDR_TO_OFF (btree s) addr) rsize = Some data
    /\ let m2 := set F_checksum (store (mem buf) 0 data) 0 in
       let rb := read_buf (__wt_disk_read s scr buf addr rsize) in
       (get F_size m2 = get F_memsize m2 -> rb = mkBuf m2 (size buf))
       /\ (get F_size m2 <> get F_memsize m2 ->
           exists c out,
             compressor (btree s) = Some c
             /\ Z.of_nat (length (payload (mkBuf m2 (size buf))))
                = size buf - COMPRESS_SKIP
             /\ decompress c (payload (mkBuf m2 (size buf)))
                  (wrap32 (get F_memsize m2 - COMPRESS_SKIP)) = Some out
             /\ size rb = get F_memsize m2
             /\ firstn (32 + length out) (mem rb) = firstn 32 m2 ++ out).
Proof.
  intros Hscr Hlo Hhi Hmax. unfold __wt_disk_read.
  assert (Hcap : COMPRESS_SKIP <= Z.of_nat (length (mem buf))) by lia.
  destruct (__wt_read _ _ _) as [data|]; [|discriminate].
  intros Hret. exists data. split; [reflexivity|]. cbv zeta.
  set (m2 := set F_checksum (store (mem buf) 0 data) 0) in *.
  revert Hret.
  destruct (negb _); [discriminate|].
  destruct (Z.eqb_spec (get F_size m2) (get F_memsize m2)) as [He|Hne].
  - intros _. cbn [read_buf fst snd]. split; [reflexivity|contradiction].
  - destruct (__wt_scr_alloc _ _) as [tmp|] eqn:Htmp; [|discriminate].
    destruct (compressor _) as [c|]; [|discriminate].
    destruct (decompress _ _ _) as [out|] eqn:Hout; [|discriminate].
    intros _. cbn [read_buf fst snd mem size]. split; [contradiction|].
    intros _. exists c, out.
    destruct (Hscr _ _ _ Htmp) as [Hts _]. rewrite Hts in Hout.
    assert (L2 : (32 <= length m2)%nat).
    { unfold m2, COMPRESS_SKIP in *. list_len. }
    assert (Lm : (length (mem buf) <= length m2)%nat).
    { unfold m2. list_len. }
    repeat split; auto.
    { unfold payload. cbn [mem size].
      rewrite (wrap32_small (size buf - COMPRESS_SKIP))
        by (unfold COMPRESS_SKIP in *; lia).
      change (Z.to_nat COMPRESS_SKIP) with 32%nat.
      rewrite length_firstn, length_skipn. unfold COMPRESS_SKIP in *. lia. }
    change (Z.to_nat COMPRESS_SKIP) with 32%nat.
    unfold memcpy. rewrite store_0.
    assert (LX : length (firstn 32 m2) = 32%nat) by (rewrite length_firstn; lia).
    rewrite LX.
    rewrite store_app_r by lia. rewrite LX, Nat.sub_diag, store_0.
    rewrite firstn_app, LX, firstn_all2 by lia. f_equal.
    replace (32 + length out - 32)%nat with (length out) by lia.
    rewrite firstn_app, firstn_all, Nat.sub_diag. cbn [firstn]. apply app_nil_r.
Qed.

(** X3: every field of the 32-byte header other than the checksum reaches
    the caller as it was read from the file, on both paths. *)
Theorem read_preserves_header s scr buf addr rsize data f :
  __wt_read (fh (btree s)) (WT_ADDR_TO_OFF (btree s) addr) rsize = Some data ->
  (32 <= length data)%nat ->
  read_ret (__wt_disk_read s scr buf addr rsize) = None ->
  disjoint f F_checksum -> (f_off f + f_len f <= 32)%nat ->
  get f (mem (read_buf (__wt_disk_read s scr buf addr rsize))) = get f data.
Proof.
  intros Hrd Hd Hret Hdis Hf. revert Hret.
  unfold __wt_disk_read. rewrite Hrd.
  set (m2 := set F_checksum (store (mem buf) 0 data) 0).
  assert (L2 : (32 <= length m2)%nat) by (unfold m2; list_len).
  assert (G : get f m2 = get f data).
  { unfold m2. rewrite get_set_other by (auto; cbn [f_off F_checksum]; lia).
    rewrite store_0. apply get_app_l. lia. }
  destruct (negb _); [discriminate|].
  destruct (get F_size m2 =? get F_memsize m2); [intros _; exact G|].
  destruct (__wt_scr_alloc _ _) as [tmp|]; [|discriminate].
  destruct (compressor _) as [c|]; [|discriminate].
  destruct (decompress _ _ _) as [out|]; [|discriminate].
  intros _. cbn [read_buf fst snd mem].
  change (Z.to_nat COMPRESS_SKIP) with 32%nat.
  unfold memcpy. rewrite store_0.
  assert (LX : length (firstn 32 m2) = 32%nat) by (rewrite length_firstn; lia).
  rewrite get_store_after by (rewrite ?length_app, ?LX; lia).
  rewrite get_app_l by lia.
  rewrite get_firstn by lia. exact G.
Qed.

End ReadMore.

(** ** [__wt_disk_write]: its failures *)

Section WriteFailures.
Context {E : WT_ENV}.

Lemma write_tail_early_failure se b d ch n e :
  w_ret (write_tail se b d ch n) = Some e -> e <> IOFailure ->
  e = AllocationFailed
  /\ w_session (write_tail se b d ch n) = se
  /\ w_out (write_tail se b d ch n) = None
  /\ w_block (write_tail se b d ch n) = None.
Proof.
  unfold write_tail.
  destruct (__wt_block_alloc _ _) as [[addr blk]|].
  - destruct (__wt_write _ _ _ _); cbn; [discriminate|].
    intros H Hne. injection H as <-. contradiction.
  - cbn. intros H _. injection H as <-. auto.
Qed.

Lemma write_tail_io_failure se b d ch n :
  w_ret (write_tail se b d ch n) = Some IOFailure ->
  exists addr blk image,
    __wt_block_alloc (block (btree se)) n = Some (addr, blk)
    /\ __wt_write (fh (btree se)) (WT_ADDR_TO_OFF (btree se) addr) n image = None
    /\ w_block (write_tail se b d ch n) = Some image
    /\ w_out (write_tail se b d ch n) = None
    /\ w_session (write_tail se b d ch n)
       = mkSession (mkBtree (allocsize (btree se)) (WT_LSN_INCR (lsn (btree se)))
                      (compressor (btree se)) (fh (btree se)) blk)
                   (stats se).
Proof.
  unfold write_tail.
  destruct (__wt_block_alloc _ _) as [[addr blk]|]; [|discriminate].
  destruct (__wt_write _ _ _ _) eqn:Hw; [discriminate|].
  intros _. exists addr, blk. eexists. cbn. repeat split; eauto.
Qed.

(** Every way through the function ends in the tail or in the scratch
    pool failing. *)
Lemma write_shape s scr buf :
  (exists b d ch n, __wt_disk_write s scr buf = write_tail s b d ch n)
  \/ __wt_disk_write s scr buf
     = mkWR (Some ScratchAllocFailed) None (set_sizes buf) s DskBuf None.
Proof.
  unfold __wt_disk_write, write_uncompressed.
  destruct (compressor (btree s)) as [c|]; [|left; eauto].
  destruct (_ =? _); [left; eauto|].
  destruct (__wt_scr_alloc _ _) as [tmp|]; [|right; reflexivity].
  destruct (compress _ _ _) as [out|]; [|left; eauto].
  destruct (_ >=? _); left; eauto.
Qed.

(** X4: a write that fails before the file is touched (no scratch buffer, or
    the allocator refuses) leaves the whole session as it found it: the
    LSN is not consumed, no statistic moves, nothing was handed to the
    file and no address is returned.  There is no other failure short of
    the file write itself. *)
Theorem write_failure_before_stamp s scr buf e :
  w_ret (__wt_disk_write s scr buf) = Some e -> e <> IOFailure ->
  (e = ScratchAllocFailed \/ e = AllocationFailed)
  /\ w_session (__wt_disk_write s scr buf) = s
  /\ w_out (__wt_disk_write s scr buf) = None
  /\ w_block (__wt_disk_write s scr buf) = None.
Proof.
  destruct (write_shape s scr buf) as [(b & d & ch & n & H)|H]; rewrite H.
  - intros Hret Hne.
    destruct (write_tail_early_failure _ _ _ _ _ _ Hret Hne) as (-> & ? & ? & ?).
    auto.
  - cbn. intros Hret _. injection Hret as <-. auto.
Qed.

(** X5: a write that fails in the file write has already taken an address
    from the allocator and consumed an LSN: the session comes back with
    the allocator advanced and the counter incremented, the file and the
    statistics as they were, and no address is returned for the extent. *)
Theorem write_io_failure_state s scr buf :
  w_ret (__wt_disk_write s scr buf) = Some IOFailure ->
  exists addr blk n image,
    __wt_block_alloc (block (btree s)) n = Some (addr, blk)
    /\ __wt_write (fh (btree s)) (WT_ADDR_TO_OFF (btree s) addr) n image = None
    /\ w_block (__wt_disk_write s scr buf) = Some image
    /\ w_out (__wt_disk_write s scr buf) = None
    /\ w_session (__wt_disk_write s scr buf)
       = mkSession (mkBtree (allocsize (btree s)) (WT_LSN_INCR (lsn (btree s)))
                      (compressor (btree s)) (fh (btree s)) blk)
                   (stats s).
Proof.
  destruct (write_shape s scr buf) as [(b & d & ch & n & H)|H]; rewrite H.
  - intros Hret.
    destruct (write_tail_io_failure _ _ _ _ _ Hret) as (addr & blk & image & R).
    exists addr, blk, n, image. exact R.
  - discriminate.
Qed.

End WriteFailures.

(** ** [__wt_disk_write]: what a successful write leaves behind *)

Section WriteMore.
Context {E : WT_ENV}.
Variables (s : WT_SESSION_IMPL) (scr : WT_SCR) (buf : WT_BUF).
Local Abbreviation a := (allocsize (btree s)).
Local Abbreviation S := (size buf).
Local Abbreviation A := (WT_ALIGN (size buf) (allocsize (btree s))).

Hypothesis Hs : session_ok s.
Hypothesis Hv : valid_page (allocsize (btree s)) buf.

Lemma write_tail_success_state se b d ch n :
  w_ret (write_tail se b d ch n) = None ->
  let image := firstn (Z.to_nat n) (stamp (mem ch) (WT_LSN_INCR (lsn (btree se))) n) in
  exists addr blk fh',
    __wt_block_alloc (block (btree se)) n = Some (addr, blk)
    /\ __wt_write (fh (btree se)) (WT_ADDR_TO_OFF (btree se) addr) n image = Some fh'
    /\ w_out (write_tail se b d ch n) = Some (addr, n)
    /\ w_block (write_tail se b d ch n) = Some image
    /\ w_session (write_tail se b d ch n)
       = stat_write
           (mkSession (mkBtree (allocsize (btree se)) (WT_LSN_INCR (lsn (btree se)))
                         (compressor (btree se)) fh' blk) (stats se))
    /\ w_buf (write_tail se b d ch n)
       = match d with
         | DskBuf => mkBuf (stamp (mem ch) (WT_LSN_INCR (lsn (btree se))) n) (size b)
         | DskTmp => b
         end.
Proof.
  unfold write_tail.
  destruct (__wt_block_alloc _ _) as [[addr blk]|]; [|discriminate].
  destruct (__wt_write _ _ _ _) as [fh'|] eqn:Hw; [|discriminate].
  intros _. cbv zeta. exists addr, blk, fh'. cbn. repeat split; auto.
Qed.

(** The buffer a successful write stamped and handed to the file. *)
Lemma write_chosen :
  scratch_sized ->
  w_ret (__wt_disk_write s scr buf) = None ->
  exists b d ch n,
    __wt_disk_write s scr buf = write_tail s b d ch n
    /\ 32 <= n /\ (Z.to_nat n <= length (mem ch))%nat
    /\ match d with
       | DskBuf => b = not_compressed (set_sizes buf) A /\ ch = b /\ n = A
       | DskTmp =>
         exists c tmp out,
           compressor (btree s) = Some c
           /\ __wt_scr_alloc scr S = Some tmp
           /\ compress c (payload buf) (S - COMPRESS_SKIP) = Some out
           /\ Z.of_nat (length out) + 32 <= S
           /\ n = WT_ALIGN (Z.of_nat (length out) + COMPRESS_SKIP) a
           /\ n < A
           /\ b = set_sizes buf
           /\ ch = compressed (set_sizes buf) tmp out n
       end.
Proof.
  intros Hscr Hret.
  destruct (valid_page_facts s buf Hs Hv)
    as (Ha & HS & HSA & HAS & HA & Hm & WA & WS & WP).
  destruct (write_paths s scr buf Hs Hv)
    as [H|[H|(c & tmp & out & Hc & Hne & Htmp & Hout & Hlen & Hlt & H)]].
  - exists (not_compressed (set_sizes buf) A), DskBuf,
      (not_compressed (set_sizes buf) A), A.
    split; [exact H|]. split; [lia|]. split; [|auto].
    rewrite (length_not_compressed s buf Hs Hv). lia.
  - rewrite H in Hret. discriminate.
  - eexists (set_sizes buf), DskTmp, _, _. split; [exact H|].
    pose proof (WT_ALIGN_ge (Z.of_nat (length out) + COMPRESS_SKIP) a Ha) as Hge.
    destruct (compressed_layout s scr buf Hs Hv tmp out Hscr Htmp Hlen Hlt) as [_ Lcap].
    split; [unfold COMPRESS_SKIP in *; lia|]. split; [exact Lcap|].
    exists c, tmp, out. repeat split; auto.
Qed.

(** X6: after a successful write the session holds exactly this: the
    allocator state the allocator returned for a request of the returned
    size, the file the file write returned for that many bytes at
    [addr * allocsize], the incremented counter, and the two write
    statistics one higher; the block is as long as the returned size. *)
Theorem write_success_state :
  scratch_sized ->
  w_ret (__wt_disk_write s scr buf) = None ->
  exists addr sz image blk fh',
    w_out (__wt_disk_write s scr buf) = Some (addr, sz)
    /\ w_block (__wt_disk_write s scr buf) = Some image
    /\ Z.of_nat (length image) = sz
    /\ __wt_block_alloc (block (btree s)) sz = Some (addr, blk)
    /\ __wt_write (fh (btree s)) (addr * a) sz image = Some fh'
    /\ w_session (__wt_disk_write s scr buf)
       = mkSession (mkBtree a (WT_LSN_INCR (lsn (btree s))) (compressor (btree s)) fh' blk)
           (mkStats (page_read (stats s)) (block_read (stats s))
              (page_write (stats s) + 1) (block_write (stats s) + 1)).
Proof.
  intros Hscr Hret.
  destruct (write_chosen Hscr Hret) as (b & d & ch & n & H & Hn & Hcap & _).
  rewrite H in *.
  destruct (write_tail_success_state _ _ _ _ _ Hret)
    as (addr & blk & fh' & Hal & Hw & Ho & Hb & Hse & _).
  exists addr, n. eexists. exists blk, fh'.
  split; [exact Ho|]. split; [exact Hb|]. split.
  { rewrite length_firstn, length_stamp by lia. lia. }
  split; [exact Hal|]. split; [exact Hw|]. exact Hse.
Qed.

(** X7: every persisted block verifies against itself: its checksum field
    holds the checksum of the block with that field zeroed. *)
Theorem persisted_block_checksum :
  scratch_sized ->
  w_ret (__wt_disk_write s scr buf) = None ->
  exists image,
    w_block (__wt_disk_write s scr buf) = Some image
    /\ get F_checksum image = wrap32 (__wt_cksum (set F_checksum image 0)).
Proof.
  intros Hscr Hret.
  destruct (write_chosen Hscr Hret) as (b & d & ch & n & H & Hn & Hcap & _).
  rewrite H in *.
  destruct (write_tail_success_state _ _ _ _ _ Hret)
    as (addr & blk & fh' & _ & _ & _ & Hb & _).
  eexists. split; [exact Hb|].
  set (l := WT_LSN_INCR (lsn (btree s))).
  destruct (stamp_verifies (mem ch) l (Z.to_nat n) (repeat 0 (Z.to_nat n)))
    as (V1 & V2 & V3 & _); [lia | lia | rewrite repeat_length; lia |].
  rewrite Z2Nat.id in V1, V2, V3 by lia.
  set (image := firstn (Z.to_nat n) (stamp (mem ch) l n)) in *.
  rewrite V2 in V1.
  rewrite store_0, V3 in V1.
  rewrite skipn_all2 in V1 by (rewrite repeat_length; lia).
  rewrite !app_nil_r in V1.
  rewrite firstn_all2 in V1
    by (rewrite length_set; cbn [f_off f_len F_checksum]; lia).
  exact V1.
Qed.

(** X8: a page that fits one allocation unit, or a btree without a
    compressor, always takes the uncompressed path: the compressor and
    the scratch pool are not consulted. *)
Theorem write_never_compresses_minimal :
  compressor (btree s) = None \/ A = a ->
  __wt_disk_write s scr buf = write_uncompressed s (set_sizes buf) A
  /\ w_dsk (__wt_disk_write s scr buf) = DskBuf
  /\ w_ret (__wt_disk_write s scr buf) <> Some ScratchAllocFailed
  /\ (w_ret (__wt_disk_write s scr buf) = None ->
      w_block (__wt_disk_write s scr buf) = Some (uncompressed_block s buf)).
Proof.
  intros Hcase.
  destruct (valid_page_facts s buf Hs Hv)
    as (Ha & HS & HSA & HAS & HA & Hm & WA & WS & WP).
  assert (H : __wt_disk_write s scr buf = write_uncompressed s (set_sizes buf) A).
  { unfold __wt_disk_write. change (size (set_sizes buf)) with S. rewrite WA.
    destruct (compressor (btree s)) as [c|]; [|reflexivity].
    destruct Hcase as [Hc|He]; [discriminate|].
    destruct (Z.eqb_spec A a); [reflexivity|contradiction]. }
  split; [exact H|]. rewrite H. split; [apply write_tail_dsk|]. split.
  - unfold write_uncompressed.
    destruct (write_tail_outcomes s (not_compressed (set_sizes buf) A) DskBuf
                (not_compressed (set_sizes buf) A) A) as [R|[[R _]|[R _]]];
      cbv zeta in R; rewrite R; discriminate.
  - intros Hret.
    destruct (uncompressed_image s buf Hs Hv Hret)
      as (addr & image & _ & _ & Hb & -> & _).
    exact Hb.
Qed.

End WriteMore.

(** ** [__wt_disk_write]: the bytes of the persisted block *)

Section WriteLayout.
Context {E : WT_ENV}.
Variables (s : WT_SESSION_IMPL) (scr : WT_SCR) (buf : WT_BUF).
Local Abbreviation a := (allocsize (btree s)).
Local Abbreviation S := (size buf).
Local Abbreviation A := (WT_ALIGN (size buf) (allocsize (btree s))).

Hypothesis Hs : session_ok s.
Hypothesis Hv : valid_page (allocsize (btree s)) buf.

(** X9: on the uncompressed path the write works in place: the caller's
    buffer comes back as the persisted block (size set to the aligned
    size, padded, stamped), its bytes past the aligned size untouched;
    the block is the caller's payload behind the header, then zeros. *)
Theorem uncompressed_write_in_place :
  w_dsk (__wt_disk_write s scr buf) = DskBuf ->
  w_ret (__wt_disk_write s scr buf) = None ->
  let r := __wt_disk_write s scr buf in
  size (w_buf r) = A
  /\ w_block r = Some (firstn (Z.to_nat A) (mem (w_buf r)))
  /\ skipn (Z.to_nat A) (mem (w_buf r)) = skipn (Z.to_nat A) (mem buf)
  /\ firstn (Z.to_nat (S - 32)) (skipn 32 (mem (w_buf r))) = payload buf
  /\ firstn (Z.to_nat (A - S)) (skipn (Z.to_nat S) (mem (w_buf r)))
     = repeat 0 (Z.to_nat (A - S)).
Proof.
  intros Hd Hret r.
  destruct (valid_page_facts s buf Hs Hv)
    as (Ha & HS & HSA & HAS & HA & Hm & WA & WS & WP).
  assert (H : __wt_disk_write s scr buf = write_uncompressed s (set_sizes buf) A).
  { destruct (write_paths s scr buf Hs Hv)
      as [H|[H|(c & tmp & out & _ & _ & _ & _ & _ & _ & H)]]; [exact H|..].
    - rewrite H in Hret. discriminate.
    - rewrite H, write_tail_dsk in Hd. discriminate. }
  unfold r. rewrite H in *. clear H r.
  destruct (uncompressed_image s buf Hs Hv Hret)
    as (addr & image & _ & _ & Hb & Hi & _ & _ & _ & _ & Hz).
  unfold write_uncompressed in *.
  destruct (write_tail_success_state _ _ _ _ _ Hret)
    as (_ & _ & _ & _ & _ & _ & Hb' & _ & Hbuf).
  cbv zeta in Hb'. rewrite Hbuf, Hb'. cbn [mem size not_compressed].
  pose proof (length_not_compressed s buf Hs Hv) as HL.
  pose proof (uncompressed_layout s buf Hs Hv) as Hp.
  unfold uncompressed_block in Hp, Hi. cbv zeta in Hp, Hi.
  set (M := mem (not_compressed (set_sizes buf) A)) in *.
  set (X := stamp M (WT_LSN_INCR (lsn (btree s))) A) in *.
  assert (LX : length X = length (mem buf))
    by (unfold X; rewrite length_stamp; lia).
  change (stamp _ _ _) with X.
  repeat split.
  - unfold X. rewrite skipn_stamp by lia.
    unfold M, not_compressed. cbn [mem]. change (size (set_sizes buf)) with S.
    unfold set, memset.
    rewrite !skipn_store_ge
      by (list_len; rewrite ?length_set_sizes by lia;
          rewrite ?(wrap32_small (A - S)) by lia; lia).
    apply skipn_set_sizes; lia.
  - rewrite <- Hp. rewrite skipn_firstn_comm, firstn_firstn.
    f_equal. lia.
  - rewrite <- Hz, Hi. rewrite skipn_firstn_comm. f_equal. lia.
Qed.

(** X10: in the compressed form the persisted block is the 32 header bytes,
    the compressor's output, and zeros up to the returned size. *)
Theorem compressed_block_layout :
  scratch_sized ->
  w_dsk (__wt_disk_write s scr buf) = DskTmp ->
  w_ret (__wt_disk_write s scr buf) = None ->
  exists c out addr sz image,
    compressor (btree s) = Some c
    /\ compress c (payload buf) (S - COMPRESS_SKIP) = Some out
    /\ w_out (__wt_disk_write s scr buf) = Some (addr, sz)
    /\ w_block (__wt_disk_write s scr buf) = Some image
    /\ Z.of_nat (length image) = sz
    /\ skipn 32 image
       = out ++ repeat 0 (Z.to_nat (sz - (Z.of_nat (length out) + 32))).
Proof.
  intros Hscr Hd Hret.
  destruct (valid_page_facts s buf Hs Hv)
    as (Ha & HS & HSA & HAS & HA & Hm & WA & WS & WP).
  destruct (write_paths s scr buf Hs Hv)
    as [H|[H|(c & tmp & out & Hc & Hne & Htmp & Hout & Hlen & Hlt & H)]].
  - rewrite H in Hd. unfold write_uncompressed in Hd.
    rewrite write_tail_dsk in Hd. discriminate.
  - rewrite H in Hd. discriminate.
  - rewrite H in *.
    destruct (compressed_image s scr buf Hs Hv tmp out Hscr Htmp Hlen Hret)
      as (addr & image & Ho & _ & Hb & Hi & _).
    destruct (compressed_layout s scr buf Hs Hv tmp out Hscr Htmp Hlen Hlt) as [Lay Lcap].
    pose proof (WT_ALIGN_ge (Z.of_nat (length out) + COMPRESS_SKIP) a Ha) as Hge.
    destruct (compressed_header (set_sizes buf) tmp out
                (WT_ALIGN (Z.of_nat (length out) + COMPRESS_SKIP) a))
      as (_ & _ & Q3).
    { rewrite length_set_sizes; lia. }
    { destruct (Hscr _ _ _ Htmp) as [_ Hcap]. lia. }
    { unfold COMPRESS_SKIP. lia. }
    exists c, out, addr, (WT_ALIGN (Z.of_nat (length out) + COMPRESS_SKIP) a), image.
    repeat split; auto.
    + rewrite Hi. unfold compressed_block. cbv zeta.
      rewrite length_firstn, length_stamp by lia.
      unfold COMPRESS_SKIP in *. lia.
    + rewrite Hi. exact Lay.
Qed.

(** X11: the header bytes behind the LSN (the page type and the rest of the
    32-byte region) are persisted as the caller wrote them, in both
    forms. *)
Theorem write_keeps_header_tail :
  scratch_sized ->
  w_ret (__wt_disk_write s scr buf) = None ->
  exists image,
    w_block (__wt_disk_write s scr buf) = Some image
    /\ firstn 12 (skipn 20 image) = firstn 12 (skipn 20 (mem buf)).
Proof.
  intros Hscr Hret.
  destruct (valid_page_facts s buf Hs Hv)
    as (Ha & HS & HSA & HAS & HA & Hm & WA & WS & WP).
  assert (Hb1 : skipn 20 (mem (set_sizes buf)) = skipn 20 (mem buf))
    by (apply skipn_set_sizes; lia).
  assert (Lb1 : length (mem (set_sizes buf)) = length (mem buf))
    by (apply length_set_sizes; lia).
  destruct (write_paths s scr buf Hs Hv)
    as [H|[H|(c & tmp & out & Hc & Hne & Htmp & Hout & Hlen & Hlt & H)]];
    rewrite H in *; clear H.
  - destruct (uncompressed_image s buf Hs Hv Hret)
      as (addr & image & _ & _ & Hb & Hi & _).
    exists image. split; [exact Hb|]. rewrite Hi.
    pose proof (length_not_compressed s buf Hs Hv) as HL.
    unfold uncompressed_block. cbv zeta.
    rewrite skipn_firstn_comm, firstn_firstn.
    replace (Nat.min 12 (Z.to_nat A - 20)) with 12%nat by lia.
    rewrite skipn_stamp by lia.
    unfold not_compressed. cbn [mem]. change (size (set_sizes buf)) with S.
    unfold set.
    rewrite !skipn_store_ge
      by (list_len; rewrite ?Lb1; rewrite ?(wrap32_small (A - S)) by lia; lia).
    unfold memset. rewrite firstn_skipn_comm.
    rewrite firstn_store_lt by lia.
    now rewrite <- firstn_skipn_comm, Hb1.
  - discriminate.
  - destruct (compressed_image s scr buf Hs Hv tmp out Hscr Htmp Hlen Hret)
      as (addr & image & _ & _ & Hb & Hi & _).
    exists image. split; [exact Hb|]. rewrite Hi.
    destruct (Hscr _ _ _ Htmp) as [_ Hcap].
    pose proof (WT_ALIGN_ge (Z.of_nat (length out) + COMPRESS_SKIP) a Ha) as Hge.
    set (cs := WT_ALIGN (Z.of_nat (length out) + COMPRESS_SKIP) a) in *.
    destruct (compressed_header (set_sizes buf) tmp out cs) as (_ & _ & Q3);
      [lia | lia | unfold COMPRESS_SKIP; lia |].
    unfold compressed_block. cbv zeta. fold cs.
    rewrite skipn_firstn_comm, firstn_firstn.
    replace (Nat.min 12 (Z.to_nat cs - 20)) with 12%nat
      by (unfold COMPRESS_SKIP in *; lia).
    rewrite skipn_stamp by lia.
    unfold compressed. cbn [mem].
    rewrite (wrap32_small (Z.of_nat (length out) + COMPRESS_SKIP))
      by (unfold COMPRESS_SKIP; lia).
    change (Z.to_nat COMPRESS_SKIP) with 32%nat.
    set (t1 := store (mem tmp) 32 out).
    assert (L1 : length t1 = length (mem tmp)) by (unfold t1; list_len).
    set (t2 := memcpy t1 (mem (set_sizes buf)) 32).
    assert (L2 : length t2 = length (mem tmp)) by (unfold t2; list_len).
    unfold set at 1. rewrite skipn_store_ge by (list_len; unfold COMPRESS_SKIP; lia).
    unfold memset. rewrite firstn_skipn_comm.
    rewrite firstn_store_lt by (unfold COMPRESS_SKIP; lia).
    unfold t2, memcpy. rewrite store_0, firstn_app.
    rewrite length_firstn.
    replace (20 + 12 - Nat.min 32 (length (mem (set_sizes buf))))%nat with 0%nat by lia.
    rewrite firstn_O, app_nil_r, firstn_firstn.
    change (Nat.min (20 + 12) 32) with 32%nat.
    change 32%nat with (20 + 12)%nat.
    now rewrite <- firstn_skipn_comm, Hb1.
Qed.

End WriteLayout.

(** ** The further properties on concrete pages *)

Lemma toy_small_page_valid : valid_page 512 toy_small_page.
Proof.
  unfold valid_page, toy_small_page. cbn [mem size].
  rewrite !length_app, !repeat_length.
  change (WT_ALIGN 100 512) with 512. unfold COMPRESS_SKIP, UINT32_MAX. lia.
Qed.

Lemma read_success_buffer_witness :
  let s := w_session (__wt_disk_write (toy_session (Some run_compressor) 7) true
                        (toy_page 7)) in
  let rd := __wt_disk_read s true (toy_rbuf 512) 0 512 in
  COMPRESS_SKIP <= size (toy_rbuf 512)
  /\ size (toy_rbuf 512) <= Z.of_nat (length (mem (toy_rbuf 512)))
  /\ read_ret rd = None
  /\ size (read_buf rd) = 600
  /\ skipn 32 (firstn 600 (mem (read_buf rd))) = repeat 7 568.
Proof.
  intros s rd.
  assert (Hlo : COMPRESS_SKIP <= size (toy_rbuf 512)) by (vm_compute; discriminate).
  assert (Hhi : size (toy_rbuf 512) <= Z.of_nat (length (mem (toy_rbuf 512))))
    by (vm_compute; discriminate).
  assert (Hr : read_ret rd = None) by (vm_compute; reflexivity).
  do 3 (split; [assumption|]).
  destruct (read_success_buffer s true (toy_rbuf 512) 0 512 toy_scratch_sized
              Hlo Hhi)
    as (data & Hd & _ & Hc); [vm_compute; discriminate | exact Hr |].
  injection Hd as <-.
  destruct Hc as (c & out & _ & _ & _ & Hsz & _); [vm_compute; discriminate|].
  split; [unfold rd; rewrite Hsz|]; vm_compute; reflexivity.
Defined.

Lemma read_preserves_header_witness :
  let s0 := toy_session (Some run_compressor) 7 in
  let s := w_session (__wt_disk_write s0 true (toy_page 7)) in
  let rd := __wt_disk_read s true (toy_rbuf 512) 0 512 in
  read_ret rd = None
  /\ get F_lsn (mem (read_buf rd))
     = get F_lsn (compressed_block s0 (toy_page 7) (mkBuf (repeat 170 600) 600) [7])
  /\ get F_lsn (mem (read_buf rd)) = 8.
Proof.
  intros s0 s rd.
  assert (Hr : read_ret rd = None) by (vm_compute; reflexivity).
  split; [exact Hr|].
  assert (G : get F_lsn (mem (read_buf rd))
              = get F_lsn (compressed_block s0 (toy_page 7)
                             (mkBuf (repeat 170 600) 600) [7])).
  { apply (read_preserves_header s true (toy_rbuf 512) 0 512).
    - vm_compute. reflexivity.
    - vm_compute. lia.
    - exact Hr.
    - apply disjoint_lsn_checksum.
    - cbn. lia. }
  split; [exact G|]. rewrite G. vm_compute. reflexivity.
Defined.

Lemma write_failure_before_stamp_witness :
  w_ret (__wt_disk_write toy_full_session true (toy_page 7)) = Some AllocationFailed
  /\ w_session (__wt_disk_write toy_full_session true (toy_page 7)) = toy_full_session
  /\ w_block (__wt_disk_write toy_full_session true (toy_page 7)) = None.
Proof.
  assert (Hr : w_ret (__wt_disk_write toy_full_session true (toy_page 7))
               = Some AllocationFailed) by (vm_compute; reflexivity).
  split; [exact Hr|].
  destruct (write_failure_before_stamp toy_full_session true (toy_page 7) _ Hr)
    as (_ & Hse & _ & Hb); [discriminate|].
  split; assumption.
Defined.

Lemma write_io_failure_state_witness :
  w_ret (@__wt_disk_write readonly_env readonly_session true (toy_page 7))
  = Some IOFailure
  /\ lsn (btree (w_session (@__wt_disk_write readonly_env readonly_session true
                              (toy_page 7)))) = 8
  /\ w_out (@__wt_disk_write readonly_env readonly_session true (toy_page 7)) = None.
Proof.
  assert (Hr : w_ret (@__wt_disk_write readonly_env readonly_session true (toy_page 7))
               = Some IOFailure) by (vm_compute; reflexivity).
  split; [exact Hr|].
  destruct (@write_io_failure_state readonly_env readonly_session true (toy_page 7) Hr)
    as (addr & blk & n & image & _ & _ & _ & Ho & Hse).
  split; [rewrite Hse; reflexivity | exact Ho].
Defined.

Lemma write_success_state_witness :
  let s := toy_session (Some run_compressor) 7 in
  session_ok s /\ valid_page 512 (toy_page 7)
  /\ w_ret (__wt_disk_write s true (toy_page 7)) = None
  /\ exists addr sz image,
       w_out (__wt_disk_write s true (toy_page 7)) = Some (addr, sz)
       /\ w_block (__wt_disk_write s true (toy_page 7)) = Some image
       /\ Z.of_nat (length image) = sz
       /\ page_write (stats (w_session (__wt_disk_write s true (toy_page 7)))) = 1.
Proof.
  intros s.
  assert (Hs : session_ok s) by apply toy_session_ok.
  assert (Hv : valid_page (allocsize (btree s)) (toy_page 7)) by apply toy_page_valid.
  assert (Hr : w_ret (__wt_disk_write s true (toy_page 7)) = None)
    by (vm_compute; reflexivity).
  do 3 (split; [assumption|]).
  destruct (write_success_state s true (toy_page 7) Hs Hv toy_scratch_sized Hr)
    as (addr & sz & image & blk & fh' & Ho & Hb & Hl & _ & _ & Hse).
  exists addr, sz, image.
  split; [exact Ho|]. split; [exact Hb|]. split; [exact Hl|].
  rewrite Hse. reflexivity.
Defined.

Lemma persisted_block_checksum_witness :
  let s := toy_session (Some run_compressor) 7 in
  session_ok s /\ valid_page 512 toy_page_mixed
  /\ w_ret (__wt_disk_write s true toy_page_mixed) = None
  /\ exists image,
       w_block (__wt_disk_write s true toy_page_mixed) = Some image
       /\ get F_checksum image = wrap32 (__wt_cksum (set F_checksum image 0)).
Proof.
  intros s.
  assert (Hs : session_ok s) by apply toy_session_ok.
  assert (Hv : valid_page (allocsize (btree s)) toy_page_mixed)
    by apply toy_page_mixed_valid.
  assert (Hr : w_ret (__wt_disk_write s true toy_page_mixed) = None)
    by (vm_compute; reflexivity).
  do 3 (split; [assumption|]).
  exact (persisted_block_checksum s true toy_page_mixed Hs Hv toy_scratch_sized Hr).
Defined.

Lemma write_never_compresses_minimal_witness :
  let s := toy_session (Some run_compressor) 7 in
  session_ok s /\ valid_page 512 toy_small_page
  /\ WT_ALIGN (size toy_small_page) 512 = 512
  /\ compress run_compressor (payload toy_small_page) (100 - COMPRESS_SKIP) = Some [7]
  /\ w_dsk (__wt_disk_write s true toy_small_page) = DskBuf.
Proof.
  intros s.
  assert (Hs : session_ok s) by apply toy_session_ok.
  assert (Hv : valid_page (allocsize (btree s)) toy_small_page)
    by apply toy_small_page_valid.
  do 2 (split; [assumption|]).
  split; [reflexivity|]. split; [vm_compute; reflexivity|].
  apply (write_never_compresses_minimal s true toy_small_page Hs Hv).
  right. reflexivity.
Defined.

Lemma uncompressed_write_in_place_witness :
  let s := toy_session None 7 in
  let r := __wt_disk_write s true (toy_page 7) in
  session_ok s /\ valid_page 512 (toy_page 7)
  /\ w_dsk r = DskBuf /\ w_ret r = None
  /\ size (w_buf r) = 1024
  /\ w_block r = Some (firstn 1024 (mem (w_buf r))).
Proof.
  intros s r.
  assert (Hs : session_ok s) by (split; [cbn; lia | cbn; discriminate]).
  assert (Hv : valid_page (allocsize (btree s)) (toy_page 7)) by apply toy_page_valid.
  assert (Hd : w_dsk r = DskBuf) by (vm_compute; reflexivity).
  assert (Hr : w_ret r = None) by (vm_compute; reflexivity).
  do 4 (split; [assumption|]).
  destruct (uncompressed_write_in_place s true (toy_page 7) Hs Hv Hd Hr)
    as (H1 & H2 & _).
  split; [exact H1 | exact H2].
Defined.

Lemma compressed_block_layout_witness :
  let s := toy_session (Some run_compressor) 7 in
  session_ok s /\ valid_page 512 (toy_page 7)
  /\ w_dsk (__wt_disk_write s true (toy_page 7)) = DskTmp
  /\ w_ret (__wt_disk_write s true (toy_page 7)) = None
  /\ exists image,
       w_block (__wt_disk_write s true (toy_page 7)) = Some image
       /\ skipn 32 image = [7] ++ repeat 0 479.
Proof.
  intros s.
  assert (Hs : session_ok s) by apply toy_session_ok.
  assert (Hv : valid_page (allocsize (btree s)) (toy_page 7)) by apply toy_page_valid.
  assert (Hd : w_dsk (__wt_disk_write s true (toy_page 7)) = DskTmp)
    by (vm_compute; reflexivity).
  assert (Hr : w_ret (__wt_disk_write s true (toy_page 7)) = None)
    by (vm_compute; reflexivity).
  do 4 (split; [assumption|]).
  destruct (compressed_block_layout s true (toy_page 7) Hs Hv toy_scratch_sized Hd Hr)
    as (c & out & addr & sz & image & Hc & Hco & Ho & Hb & _ & Hlay).
  exists image. split; [exact Hb|].
  cbn in Hc. injection Hc as <-.
  vm_compute in Hco. injection Hco as <-.
  vm_compute in Ho. injection Ho as <- <-.
  exact Hlay.
Defined.

Lemma write_keeps_header_tail_witness :
  let s := toy_session (Some run_compressor) 7 in
  session_ok s /\ valid_page 512 (toy_page 7)
  /\ w_ret (__wt_disk_write s true (toy_page 7)) = None
  /\ exists image,
       w_block (__wt_disk_write s true (toy_page 7)) = Some image
       /\ firstn 12 (skipn 20 image) = firstn 12 (skipn 20 (mem (toy_page 7))).
Proof.
  intros s.
  assert (Hs : session_ok s) by apply toy_session_ok.
  assert (Hv : valid_page (allocsize (btree s)) (toy_page 7)) by apply toy_page_valid.
  assert (Hr : w_ret (__wt_disk_write s true (toy_page 7)) = None)
    by (vm_compute; reflexivity).
  do 3 (split; [assumption|]).
  exact (write_keeps_header_tail s true (toy_page 7) Hs Hv toy_scratch_sized Hr).
Defined.

(** ** Statistics over a run of writes *)

Section WriteStatistics.
Context {E : WT_ENV}.

Lemma write_tail_stats se b d ch n :
  let r := write_tail se b d ch n in
  allocsize (btree (w_session r)) = allocsize (btree se)
  /\ compressor (btree (w_session r)) = compressor (btree se)
  /\ stats (w_session r)
     = if succeeded r
       then mkStats (page_read (stats se)) (block_read (stats se))
              (page_write (stats se) + 1) (block_write (stats se) + 1)
       else stats se.
Proof.
  unfold write_tail, succeeded.
  destruct (__wt_block_alloc _ _) as [[addr blk]|]; [|cbn; auto].
  destruct (__wt_write _ _ _ _); cbn; auto.
Qed.

Lemma write_stats s scr buf :
  let r := __wt_disk_write s scr buf in
  allocsize (btree (w_session r)) = allocsize (btree s)
  /\ compressor (btree (w_session r)) = compressor (btree s)
  /\ stats (w_session r)
     = if succeeded r
       then mkStats (page_read (stats s)) (block_read (stats s))
              (page_write (stats s) + 1) (block_write (stats s) + 1)
       else stats s.
Proof.
  destruct (write_shape s scr buf) as [(b & d & ch & n & H)|H]; cbv zeta; rewrite H.
  - apply write_tail_stats.
  - cbn. auto.
Qed.

(** X12: over any run of writes on one btree, whatever the buffers and
    whichever writes fail: the allocation unit and the compressor stay
    the configured ones, the read statistics do not move, and the two
    write statistics count exactly the writes that succeeded. *)
Theorem write_run_statistics reqs : forall s,
  let n := Z.of_nat (length (filter succeeded (write_all s reqs))) in
  allocsize (btree (session_after s reqs)) = allocsize (btree s)
  /\ compressor (btree (session_after s reqs)) = compressor (btree s)
  /\ page_read (stats (session_after s reqs)) = page_read (stats s)
  /\ block_read (stats (session_after s reqs)) = block_read (stats s)
  /\ page_write (stats (session_after s reqs)) = page_write (stats s) + n
  /\ block_write (stats (session_after s reqs)) = block_write (stats s) + n.
Proof.
  induction reqs as [|[scr b] rest IH]; intros s.
  - cbn. repeat split; lia.
  - cbn [write_all session_after filter].
    destruct (write_stats s scr b) as (Ha & Hc & Hst). cbv zeta in Ha, Hc, Hst.
    destruct (IH (w_session (__wt_disk_write s scr b)))
      as (I1 & I2 & I3 & I4 & I5 & I6).
    cbv zeta in I5, I6. cbv zeta.
    rewrite I1, I2, I3, I4, I5, I6, Ha, Hc, Hst.
    destruct (succeeded (__wt_disk_write s scr b)); cbn [length page_read block_read
      page_write block_write]; repeat split; lia.
Qed.

End WriteStatistics.
